(** * hohhot_data: the bulletin scraper of [src/hohhot_data.py]

    A shallow embedding of the scraper: Python strings as lists of code
    points, the [re] patterns of the source as regular-expression terms run
    by a backtracking matcher, [float] as exact decimal rationals, the page
    cache as a finite map from file names to bytes, and the coroutines as a
    state-and-exception monad over the cache, the request log and the global
    [month_info_list]. *)

From Stdlib Require Import NArith ZArith QArith List String Ascii Lia Bool.
From Stdlib Require Import Sorted Permutation.
From Stdlib.Strings Require Import Byte.
From stdpp Require Import gmap.
Import ListNotations.

Local Open Scope list_scope.

(** ** Python strings

    A [str] is a sequence of Unicode code points.  Literals are written as
    UTF-8 Rocq strings and decoded by [u]. *)

Definition str := list N.

Fixpoint utf8_decode (bs : list N) : str :=
  match bs with
  | [] => []
  | b0 :: t0 =>
    if (b0 <? 128)%N then b0 :: utf8_decode t0
    else match t0 with
    | [] => [b0]
    | b1 :: t1 =>
      if (b0 <? 224)%N
      then ((b0 - 192) * 64 + (b1 - 128))%N :: utf8_decode t1
      else match t1 with
      | [] => [b0; b1]
      | b2 :: t2 =>
        if (b0 <? 240)%N
        then ((b0 - 224) * 4096 + (b1 - 128) * 64 + (b2 - 128))%N :: utf8_decode t2
        else match t2 with
        | [] => [b0; b1; b2]
        | b3 :: t3 =>
          ((b0 - 240) * 262144 + (b1 - 128) * 4096 + (b2 - 128) * 64 + (b3 - 128))%N
            :: utf8_decode t3
        end
      end
    end
  end.

Definition u (s : string) : str :=
  utf8_decode (map (fun a => N_of_ascii a) (list_ascii_of_string s)).

Arguments u : simpl never.

(** [str.encode('utf-8')]: lone surrogates and values past U+10FFFF have no
    encoding ([UnicodeEncodeError], here [None]). *)
Definition byte_of (n : N) : byte :=
  match Byte.of_N n with Some b => b | None => x00 end.

Definition encode_char (c : N) : option (list byte) :=
  if (c <? 128)%N then Some [byte_of c]
  else if (c <? 2048)%N then Some [byte_of (192 + c / 64); byte_of (128 + c mod 64)]
  else if (55296 <=? c)%N && (c <=? 57343)%N then None
  else if (c <? 65536)%N then
    Some [byte_of (224 + c / 4096); byte_of (128 + (c / 64) mod 64); byte_of (128 + c mod 64)]
  else if (c <? 1114112)%N then
    Some [byte_of (240 + c / 262144); byte_of (128 + (c / 4096) mod 64);
          byte_of (128 + (c / 64) mod 64); byte_of (128 + c mod 64)]
  else None.

Fixpoint encode_utf8 (s : str) : option (list byte) :=
  match s with
  | [] => Some []
  | c :: t =>
    match encode_char c, encode_utf8 t with
    | Some b, Some bs => Some (b ++ bs)
    | _, _ => None
    end
  end.

Definition str_eqb (a b : str) : bool := bool_decide (a = b).

(** [s.removeprefix(p)] and the prefix test behind it. *)
Fixpoint strip_prefix (p s : str) : option str :=
  match p, s with
  | [], _ => Some s
  | c :: p', d :: s' => if (c =? d)%N then strip_prefix p' s' else None
  | _ :: _, [] => None
  end.

Definition removeprefix (p s : str) : str :=
  match strip_prefix p s with Some s' => s' | None => s end.

(** [str.isspace] for one code point, and [str.strip()]. *)
Definition isspace (c : N) : bool :=
  ((9 <=? c) && (c <=? 13) || (28 <=? c) && (c <=? 32) || (c =? 133) || (c =? 160)
   || (c =? 5760) || (8192 <=? c) && (c <=? 8202) || (c =? 8232) || (c =? 8233)
   || (c =? 8239) || (c =? 8287) || (c =? 12288))%N.

Fixpoint lstrip (s : str) : str :=
  match s with
  | c :: t => if isspace c then lstrip t else s
  | [] => []
  end.

Definition strip (s : str) : str := rev (lstrip (rev (lstrip s))).

(** ** Decimal digits and [float]

    [\d] on a [str] pattern and [float] both accept every Unicode decimal
    digit (category Nd).  The digits come in runs of ten, 0 to 9; the table
    lists the zero of each run (Unicode 14.0). *)
Definition decimal_zeros : list N :=
  [0x30; 0x660; 0x6f0; 0x7c0; 0x966; 0x9e6; 0xa66; 0xae6; 0xb66; 0xbe6; 0xc66;
   0xce6; 0xd66; 0xde6; 0xe50; 0xed0; 0xf20; 0x1040; 0x1090; 0x17e0; 0x1810;
   0x1946; 0x19d0; 0x1a80; 0x1a90; 0x1b50; 0x1bb0; 0x1c40; 0x1c50; 0xa620;
   0xa8d0; 0xa900; 0xa9d0; 0xa9f0; 0xaa50; 0xabf0; 0xff10; 0x104a0; 0x10d30;
   0x11066; 0x110f0; 0x11136; 0x111d0; 0x112f0; 0x11450; 0x114d0; 0x11650;
   0x116c0; 0x11730; 0x118e0; 0x11950; 0x11c50; 0x11d50; 0x11da0; 0x16a60;
   0x16ac0; 0x16b50; 0x1d7ce; 0x1d7d8; 0x1d7e2; 0x1d7ec; 0x1d7f6; 0x1e140;
   0x1e2f0; 0x1e950; 0x1fbf0]%N.

Fixpoint digit_in (zeros : list N) (c : N) : option N :=
  match zeros with
  | [] => None
  | z :: zs => if (z <=? c)%N && (c <? z + 10)%N then Some (c - z)%N else digit_in zs c
  end.

Definition digit_value (c : N) : option N := digit_in decimal_zeros c.

Definition isdigit (c : N) : bool :=
  match digit_value c with Some _ => true | None => false end.

Arguments digit_value : simpl never.
Arguments isdigit : simpl never.

(** ** Exceptions *)

Inductive exn :=
  | ValueError          (* BaseInfo on a failed search; a malformed float *)
  | IndexError          (* [match.group] of a name the pattern lacks *)
  | AttributeError      (* a method called on [None] *)
  | TypeError           (* [re.match] on [None] *)
  | UnicodeEncodeError  (* [str.encode] on a lone surrogate *)
  | ClientError.        (* the HTTP request failed *)

Inductive result (A : Type) :=
  | Ok (a : A)
  | Raise (e : exn).
Arguments Ok {A} a.
Arguments Raise {A} e.

Definition rbind {A B} (r : result A) (k : A -> result B) : result B :=
  match r with Ok a => k a | Raise e => Raise e end.

Notation "x <-r e ;; k" := (rbind e (fun x => k))
  (at level 100, e at next level, right associativity).

(** [float(s)] on the decimal literals the patterns can capture: an optional
    sign, then digits with at most one point and at least one digit.  The
    result is the exact decimal; Python rounds it to the nearest double, which
    keeps order, zero and negation.  Exponents, [inf], [nan], underscores and
    surrounding blanks, which [float] also reads, are left out: the model
    raises [ValueError] there, and no captured group contains them. *)
Fixpoint digits_value (acc : N) (s : str) : option N :=
  match s with
  | [] => Some acc
  | c :: t =>
    match digit_value c with
    | Some d => digits_value (10 * acc + d) t
    | None => None
    end
  end.

Fixpoint split_point (s : str) : str * option str :=
  match s with
  | [] => ([], None)
  | c :: t =>
    if (c =? 46)%N then ([], Some t)
    else let (a, b) := split_point t in (c :: a, b)
  end.

Definition unsigned_float (s : str) : option Q :=
  let (ip, fr) := split_point s in
  let fp := match fr with Some f => f | None => [] end in
  match ip ++ fp with
  | [] => None
  | _ :: _ =>
    match digits_value 0 ip, digits_value 0 fp with
    | Some i, Some f =>
      let scale := (10 ^ N.of_nat (List.length fp))%N in
      Some (Z.of_N (i * scale + f) # Z.to_pos (Z.of_N scale))
    | _, _ => None
    end
  end.

Definition float (s : str) : result Q :=
  let (neg, body) :=
    match s with
    | c :: t =>
      if (c =? 45)%N then (true, t)
      else if (c =? 43)%N then (false, t)
      else (false, s)
    | [] => (false, s)
    end in
  match unsigned_float body with
  | Some q => Ok (if neg then Qopp q else q)
  | None => Raise ValueError
  end.

(** ** Regular expressions

    The fragment of [re] the source uses: literal text, [\d] and bracketed
    character sets, greedy repetition of one character set ([+], [*], [?],
    [{n}], [{m,n}]), concatenation, alternation, and capturing groups.  A
    named group is keyed by its name, a numbered group by its numeral. *)
Module Re.

Inductive charset :=
  | Digit                 (* \d *)
  | OneOf (cs : str).     (* [...] or one literal character *)

Definition mem (cs : charset) (c : N) : bool :=
  match cs with
  | Digit => isdigit c
  | OneOf l => existsb (N.eqb c) l
  end.

Inductive regex :=
  | Lit (s : str)
  | Chr (cs : charset)
  | Rep (cs : charset) (lo : nat) (hi : option nat)
  | Seq (a b : regex)
  | Alt (a b : regex)
  | Group (name : string) (r : regex).

(** A match object: the bindings of the groups, the latest first. *)
Definition Match := list (string * str).

(** Greedy repetition: the remainders after [k] characters of the set, for
    every admissible [k], the longest run first. *)
Fixpoint rep_rests (cs : charset) (lo : nat) (hi : option nat) (s : str) : list str :=
  let stop := match lo with O => [s] | S _ => [] end in
  match s with
  | [] => stop
  | c :: t =>
    match hi with
    | Some O => stop
    | _ =>
      if mem cs c
      then rep_rests cs (Nat.pred lo) (option_map Nat.pred hi) t ++ stop
      else stop
    end
  end.

Definition consumed (s rest : str) : str :=
  firstn (List.length s - List.length rest) s.

(** All the ways [r] matches a prefix of [s], in the order in which the
    backtracking matcher of [re] tries them: each gives the rest of the
    input and the groups bound so far. *)
Fixpoint run (r : regex) (s : str) (g : Match) : list (str * Match) :=
  match r with
  | Lit l => match strip_prefix l s with Some t => [(t, g)] | None => [] end
  | Chr cs =>
    match s with
    | c :: t => if mem cs c then [(t, g)] else []
    | [] => []
    end
  | Rep cs lo hi => map (fun t => (t, g)) (rep_rests cs lo hi s)
  | Seq a b => flat_map (fun '(t, g') => run b t g') (run a s g)
  | Alt a b => run a s g ++ run b s g
  | Group name a => map (fun '(t, g') => (t, (name, consumed s t) :: g')) (run a s g)
  end.

(** [re.match]: the first way from the start of the string. *)
Definition match_ (r : regex) (s : str) : option Match :=
  match run r s [] with
  | (_, g) :: _ => Some g
  | [] => None
  end.

(** [pattern.search]: the first way from the leftmost start that has one. *)
Fixpoint search (r : regex) (s : str) : option Match :=
  match match_ r s with
  | Some g => Some g
  | None =>
    match s with
    | [] => None
    | _ :: t => search r t
    end
  end.

(** [match.group(name)]. *)
Fixpoint group (m : Match) (name : string) : result str :=
  match m with
  | [] => Raise IndexError
  | (n, v) :: m' => if String.eqb n name then Ok v else group m' name
  end.

Fixpoint seq (rs : list regex) : regex :=
  match rs with
  | [] => Lit []
  | [r] => r
  | r :: rs' => Seq r (seq rs')
  end.

Definition plus (cs : charset) : regex := Rep cs 1 None.
Definition star (cs : charset) : regex := Rep cs 0 None.
Definition opt (cs : charset) : regex := Rep cs 0 (Some 1%nat).

End Re.
Import Re.

(** What a pattern denotes: [denotes r w gs] says that [r] matches exactly
    the text [w] and binds the groups [gs] on the way (the latest first). *)
Fixpoint denotes (r : regex) (w : str) (gs : Match) : Prop :=
  match r with
  | Lit l => w = l /\ gs = []
  | Chr cs => exists c, w = [c] /\ mem cs c = true /\ gs = []
  | Rep cs lo hi =>
    forallb (mem cs) w = true /\ (lo <= List.length w)%nat /\
    match hi with Some h => (List.length w <= h)%nat | None => True end /\
    gs = []
  | Seq a b =>
    exists w1 w2 g1 g2,
      w = w1 ++ w2 /\ gs = g2 ++ g1 /\ denotes a w1 g1 /\ denotes b w2 g2
  | Alt a b => denotes a w gs \/ denotes b w gs
  | Group name a => exists g, gs = (name, w) :: g /\ denotes a w g
  end.

(** The trend token counts as a decrease when it shares a character with
    the set the source tests against. *)
Definition decrease (token : str) : Prop :=
  exists c, In c token /\ In c (u "降负低下").

(** The signed field [y] carries the figure [v] with the sign of [token]. *)
Definition carries (y : Q) (token : str) (v : Q) : Prop :=
  (decrease token -> y = (- v)%Q) /\ (~ decrease token -> y = v).

(** ** The patterns of the source *)

(** [num = r'\d+\.\d+|\d+'] *)
Definition num : regex :=
  Alt (seq [plus Digit; Lit (u "."); plus Digit]) (plus Digit).

(** [trend = r'[增下上][长降涨]'] *)
Definition trend : regex :=
  Seq (Chr (OneOf (u "增下上"))) (Chr (OneOf (u "长降涨"))).

Definition commercial_list_pattern : regex :=
  seq [plus Digit; Lit (u "月，我市商品房上市面积"); Group "area" num; Lit (u "万平方米，");
       Lit (u "同比"); Group "area_mom_trend" trend; Group "area_mom" num; Lit (u "%，");
       Lit (u "环比"); Group "area_yoy_trend" trend; Group "area_yoy" num; Lit (u "%")].

Definition residential_list_pattern : regex :=
  seq [Lit (u "商品住房上市面积"); Group "area" num; Lit (u "万平方米，");
       Lit (u "同比"); Group "area_mom_trend" trend; Group "area_mom" num;
       opt (OneOf (u "%")); Lit (u "，");
       Lit (u "环比"); Group "area_yoy_trend" trend; Group "area_yoy" num; Lit (u "%")].

(** [build_deal_pattern(prefix)]; every call passes plain text as [prefix]. *)
Definition build_deal_pattern (prefix : str) : regex :=
  seq [Lit prefix; Group "area" num; Lit (u "万平方米，");
       Lit (u "同比"); Group "area_yoy_trend" trend; Group "area_yoy" num; Lit (u "%，");
       Lit (u "环比"); Group "area_mom_trend" trend; Group "area_mom" num; Lit (u "%");
       Chr (OneOf (u "；|。"));
       Lit (u "成交套数"); Group "unit" (plus Digit); Lit (u "套，");
       Lit (u "同比"); Group "unit_yoy_trend" trend; Group "unit_mom" num; Lit (u "%，");
       Lit (u "环比"); Group "unit_mom_trend" trend; Group "unit_yoy" num; Lit (u "%。")].

Definition new_commercial_deal_pattern := build_deal_pattern (u "我市新建商品房成交面积").
Definition new_residential_deal_pattern := build_deal_pattern (u "其中：新建商品住宅成交面积").
Definition old_commercial_deal_pattern := build_deal_pattern (u "我市二手房成交面积").
Definition old_residential_deal_pattern := build_deal_pattern (u "其中：二手住宅成交面积").

(** [(\d{4})年(\d{1,2})月[我|市]*房地产[市|场]*[运行]*情况] *)
Definition title_pattern : regex :=
  seq [Group "1" (Rep Digit 4 (Some 4%nat)); Lit (u "年");
       Group "2" (Rep Digit 1 (Some 2%nat)); Lit (u "月");
       star (OneOf (u "我|市")); Lit (u "房地产"); star (OneOf (u "市|场"));
       star (OneOf (u "运行")); Lit (u "情况")].

(** ** The record classes *)

Definition get_sign_value (m : Match) (name : string) : result Q :=
  trend_token <-r group m (name ++ "_trend");;
  if existsb (fun char => existsb (N.eqb char) (u "下降低负")) trend_token
  then (s <-r group m name;; v <-r float s;; Ok (- v)%Q)
  else (s <-r group m name;; float s).

(** 数值，同比，环比 *)
Record BaseInfo := { value : Q; yoy : Q; mom : Q }.

(** [BaseInfo(match_result, name)].  [None] in place of the match is no
    [re.Match], and two arguments are not three numbers: [ValueError]. *)
Definition BaseInfo_init (match_result : option Match) (name : string) : result BaseInfo :=
  match match_result with
  | Some m =>
    s <-r group m name;;
    v <-r float s;;
    y <-r get_sign_value m (name ++ "_yoy");;
    mo <-r get_sign_value m (name ++ "_mom");;
    Ok {| value := v; yoy := y; mom := mo |}
  | None => Raise ValueError
  end.

(** [BaseInfo(value, yoy, mom)], the three-number form. *)
Definition BaseInfo_of_numbers (v y mo : Q) : result BaseInfo :=
  Ok {| value := v; yoy := y; mom := mo |}.

Record HouseInfo := {
  commercial_area : BaseInfo;
  commercial_unit : BaseInfo;
  residential_area : BaseInfo;
  residential_unit : BaseInfo }.

Definition HouseInfo_init (commercial_match residential_match : option Match)
  : result HouseInfo :=
  ca <-r BaseInfo_init commercial_match "area";;
  cu <-r BaseInfo_init commercial_match "unit";;
  ra <-r BaseInfo_init residential_match "area";;
  ru <-r BaseInfo_init residential_match "unit";;
  Ok {| commercial_area := ca; commercial_unit := cu;
        residential_area := ra; residential_unit := ru |}.

(** [year] and [month] hold what the caller passes: [process_index_page]
    passes the two groups of the title, which are [str]. *)
Record TradeInfo := {
  year : str;
  month : str;
  href : str;
  commercial_list_info : option BaseInfo;
  residential_list_info : option BaseInfo;
  new_house : option HouseInfo;
  old_house : option HouseInfo }.

(** [TradeInfo(year, month, href)]; [href] is what [month_tag.get('href')]
    gave, [None] when the anchor has no such attribute. *)
Definition TradeInfo_init (y mo : str) (h : option str) : result TradeInfo :=
  match h with
  | None => Raise AttributeError
  | Some h =>
    Ok {| year := y; month := mo; href := removeprefix (u "./") (strip h);
          commercial_list_info := None; residential_list_info := None;
          new_house := None; old_house := None |}
  end.


(** Lines 131 to 143 of [fill_month_trade_info]: the searches over the
    content string and the fields they fill. *)
Definition fill_from_content (trade_info : TradeInfo) (content : str) : result TradeInfo :=
  cl <-r BaseInfo_init (search commercial_list_pattern content) "area";;
  rl <-r BaseInfo_init (search residential_list_pattern content) "area";;
  let new_commercial_deal_info := search new_commercial_deal_pattern content in
  let new_residential_deal_info := search new_commercial_deal_pattern content in
  let old_commercial_deal_info := search old_commercial_deal_pattern content in
  let old_residential_deal_info := search old_commercial_deal_pattern content in
  nh <-r HouseInfo_init new_commercial_deal_info new_residential_deal_info;;
  oh <-r HouseInfo_init old_commercial_deal_info old_residential_deal_info;;
  Ok {| year := year trade_info; month := month trade_info; href := href trade_info;
        commercial_list_info := Some cl; residential_list_info := Some rl;
        new_house := Some nh; old_house := Some oh |}.

(** ** The process state and its monad

    The coroutines run one after the other on a single event loop, so every
    [await] is a plain call.  The state is the cache directory, the HTTP
    requests issued so far and the global [month_info_list]; an exception
    leaves the state as it was when raised.  The [print] calls are left out. *)

Record State := {
  files : gmap str (list byte);
  requests : list str;
  month_info_list : list TradeInfo }.

Definition M (A : Type) : Type := State -> result A * State.

Definition ret {A} (a : A) : M A := fun st => (Ok a, st).
Definition raise {A} (e : exn) : M A := fun st => (Raise e, st).
Definition lift {A} (r : result A) : M A := fun st => (r, st).

Definition bind {A B} (c : M A) (k : A -> M B) : M B :=
  fun st =>
    match c st with
    | (Ok a, st') => k a st'
    | (Raise e, st') => (Raise e, st')
    end.

Notation "x <- e ;; k" := (bind e (fun x => k))
  (at level 100, e at next level, right associativity).

(** [try: body  except: handler] with a bare [except]. *)
Definition try_except {A} (body handler : M A) : M A :=
  fun st =>
    match body st with
    | (Ok a, st') => (Ok a, st')
    | (Raise _, st') => handler st'
    end.

Fixpoint for_each {A} (l : list A) (body : A -> M unit) : M unit :=
  match l with
  | [] => ret tt
  | a :: l' => _ <- body a;; for_each l' body
  end.

(** What [fetch_html_content] returns: the [bytes] read from the cache, or
    the [str] of the response. *)
Inductive html_content :=
  | Bytes (b : list byte)
  | Text (s : str).

(** An [a] element with the three attributes the scraper reads. *)
Record Tag := { target : option str; title : option str; href_attr : option str }.

(** The site the bulletins are fetched from. *)
Definition base_url : str := u "http://zfcxjsj.huhhot.gov.cn/tjsj/".

Section Scraper.

(** The world outside the program: what the site answers, and what
    BeautifulSoup reads in a document. *)

(** [response.text()] of a GET on the URL; [None] when the request fails. *)
Variable http_text : str -> option str.

(** [BeautifulSoup(html_content, 'html.parser').find_all('a')]: the anchors of
    the document, in document order. *)
Variable soup_anchors : html_content -> list Tag.

(** [BeautifulSoup(html_content, 'lxml').find(name='div', id='para')] followed
    by [get_text(strip=True)]; [None] when the document has no such [div]. *)
Variable soup_para_text : html_content -> option str.

(** [os.path.dirname(__file__)] *)
Variable script_dir : str.

Definition fetch_content (url : str) : M str :=
  fun st =>
    let st' := {| files := files st; requests := requests st ++ [url];
                  month_info_list := month_info_list st |} in
    match http_text url with
    | Some html => (Ok html, st')
    | None => (Raise ClientError, st')
    end.

(** [open(dump_file, 'wb')] creates or empties the file; [f.write(b)] then
    fills it. *)
Definition write_file (dump_file : str) (b : list byte) : M unit :=
  fun st => (Ok tt, {| files := <[dump_file := b]> (files st); requests := requests st;
                       month_info_list := month_info_list st |}).

Definition fetch_html_content (dump_file suffix : str) : M html_content :=
  fun st =>
    match files st !! dump_file with
    | Some (b :: bs) => (Ok (Bytes (b :: bs)), st)
    | _ =>
      let url := base_url ++ suffix in
      (html <- fetch_content url;;
       _ <- write_file dump_file [];;
       match encode_utf8 html with
       | Some b => _ <- write_file dump_file b;; ret (Text html)
       | None => raise UnicodeEncodeError
       end) st
    end.

Definition path_join (dir name : str) : str :=
  match dir with
  | [] => name
  | _ :: _ => if N.eqb (List.last dir 0%N) 47 then dir ++ name else dir ++ u "/" ++ name
  end.

Definition fill_month_trade_info (trade_info : TradeInfo) (dump_file : option str)
  : M TradeInfo :=
  let dump_file :=
    match dump_file with
    | Some f => f
    | None => path_join script_dir
                (year trade_info ++ u "-" ++ month trade_info ++ u "-trade-info.html")
    end in
  html <- fetch_html_content dump_file (href trade_info);;
  match soup_para_text html with
  | None => raise AttributeError
  | Some content => lift (fill_from_content trade_info content)
  end.

Definition append_month (t : TradeInfo) : M unit :=
  fun st => (Ok tt, {| files := files st; requests := requests st;
                       month_info_list := month_info_list st ++ [t] |}).

(** [find_all('a', target='_blank', title=title_pattern)]: the attribute
    equals the string, respectively is searched by the pattern. *)
Definition is_month_tag (t : Tag) : bool :=
  match target t, title t with
  | Some tg, Some ti =>
    str_eqb tg (u "_blank") &&
    match search title_pattern ti with Some _ => true | None => false end
  | _, _ => false
  end.

(** Lines 154 to 159, the head of the loop body: the anchor's title is
    matched from its start, and the record is built from the two groups
    and the [href] attribute. *)
Definition read_month_tag (month_tag : Tag) : result (TradeInfo * str) :=
  let href := href_attr month_tag in
  match title month_tag with
  | None => Raise TypeError
  | Some title =>
    match match_ title_pattern title with
    | None => Raise AttributeError
    | Some match_res =>
      year <-r group match_res "1";;
      month <-r group match_res "2";;
      month_trade_info <-r TradeInfo_init year month href;;
      Ok (month_trade_info, title)
    end
  end.

(** The body of the loop over [month_tags]. *)
Definition process_month_tag (month_tag : Tag) : M unit :=
  found <- lift (read_month_tag month_tag);;
  let '(month_trade_info, title) := found in
  try_except
    (filled <- fill_month_trade_info month_trade_info (Some (title ++ u ".html"));;
     append_month filled)
    (ret tt).

Definition process_index_page (page_id : str) : M unit :=
  html <- fetch_html_content page_id page_id;;
  let month_tags := filter is_month_tag (soup_anchors html) in
  for_each month_tags process_month_tag.

Definition page_ids : list str :=
  u "index.html" ::
  map (fun idx => u "index_" ++ idx ++ u ".html")
      [u "1"; u "2"; u "3"; u "4"; u "5"; u "6"; u "7"].

Definition fetch_business_data : M unit :=
  for_each page_ids process_index_page.

End Scraper.

(** ** The chart renderer: ordering and the x axis *)

(** [<=] on [str]: code point by code point, a proper prefix first. *)
Fixpoint str_leb (a b : str) : bool :=
  match a, b with
  | [], _ => true
  | _ :: _, [] => false
  | c :: a', d :: b' => if (c <? d)%N then true else if (d <? c)%N then false else str_leb a' b'
  end.

(** The sort key [(obj.year, obj.month)]. *)
Definition month_key (t : TradeInfo) : str * str := (year t, month t).

(** [<=] on the sort keys. *)
Definition key_leb (a b : TradeInfo) : bool :=
  if str_eqb (year a) (year b) then str_leb (month a) (month b)
  else str_leb (year a) (year b).

(** [list.sort(key=..., reverse=False)]: a stable sort; the result of a
    stable sort is determined by the keys, here by insertion. *)
Fixpoint insert_sorted (x : TradeInfo) (l : list TradeInfo) : list TradeInfo :=
  match l with
  | [] => [x]
  | y :: l' => if key_leb x y then x :: y :: l' else y :: insert_sorted x l'
  end.

Fixpoint sort_months (l : list TradeInfo) : list TradeInfo :=
  match l with
  | [] => []
  | x :: l' => insert_sorted x (sort_months l')
  end.

(** [x = [f'{obj.year}{obj.month}' for obj in month_info_list]] *)
Definition x_labels (l : list TradeInfo) : list str :=
  map (fun obj => year obj ++ month obj) l.


(** The main block up to the x axis: the run, the in-place sort of
    [month_info_list] and the labels.  The figures drawn from the sorted
    list are left out. *)
Definition main (http_text : str -> option str)
    (soup_anchors : html_content -> list Tag)
    (soup_para_text : html_content -> option str) (script_dir : str) : M (list str) :=
  _ <- fetch_business_data http_text soup_anchors soup_para_text script_dir;;
  fun st =>
    let sorted := sort_months (month_info_list st) in
    (Ok (x_labels sorted),
     {| files := files st; requests := requests st; month_info_list := sorted |}).

(** ** A sample site

    One bulletin whose text has the listed-area sentences and the new and
    resale transaction sentences, but no resale-residential sentence, linked
    from the first two index pages; the other index pages are empty.  The
    two BeautifulSoup functions are given on these documents only. *)
Module Sample.

Definition new_commercial_sentence : str :=
  u "我市新建商品房成交面积12.5万平方米，同比增长3.2%，环比下降1.1%；成交套数150套，同比增长2.0%，环比下降0.5%。".

Definition content : str :=
  u "3月，我市商品房上市面积30.5万平方米，同比增长10.2%，环比下降5.1%。"
  ++ u "其中：商品住房上市面积20.1万平方米，同比增长8.0%，环比下降3.3%。"
  ++ new_commercial_sentence
  ++ u "其中：新建商品住宅成交面积10.0万平方米，同比增长1.0%，环比下降2.0%；成交套数100套，同比增长4.0%，环比下降6.0%。"
  ++ u "我市二手房成交面积8.4万平方米，同比下降2.5%，环比上涨1.5%；成交套数90套，同比下降3.0%，环比上涨0.7%。".

Definition bulletin_html : str := u "<div id='para'>" ++ content ++ u "</div>".

Definition month_title : str := u "2023年3月房地产市场运行情况".

Definition index_html : str :=
  u "<a target='_blank' title='" ++ month_title ++ u "' href='./202304/t1.html'>3</a>".

Definition month_tag : Tag :=
  {| target := Some (u "_blank"); title := Some month_title;
     href_attr := Some (u "./202304/t1.html") |}.

Definition http_text (url : str) : option str :=
  if str_eqb url (base_url ++ u "index.html") then Some index_html
  else if str_eqb url (base_url ++ u "index_1.html") then Some index_html
  else if str_eqb url (base_url ++ u "202304/t1.html") then Some bulletin_html
  else Some [].

Definition text_of (h : html_content) : str :=
  match h with
  | Text s => s
  | Bytes b => utf8_decode (map Byte.to_N b)
  end.

Definition soup_anchors (h : html_content) : list Tag :=
  if str_eqb (text_of h) index_html then [month_tag] else [].

Definition soup_para_text (h : html_content) : option str :=
  if str_eqb (text_of h) bulletin_html then Some content else None.

Definition initial : State :=
  {| files := ∅; requests := []; month_info_list := [] |}.

Definition run_site : result unit * State :=
  fetch_business_data http_text soup_anchors soup_para_text (u ".") initial.

(** The record of the bulletin as the index page gives it, before it is
    filled. *)
Definition trade_info : TradeInfo :=
  {| year := u "2023"; month := u "3"; href := u "202304/t1.html";
     commercial_list_info := None; residential_list_info := None;
     new_house := None; old_house := None |}.

(** One pass of the loop body on the anchor, from the empty state. *)
Definition run_month_tag : result unit * State :=
  process_month_tag http_text soup_para_text (u ".") month_tag initial.

(** The first fetch of the first index page. *)
Definition run_fetch : result html_content * State :=
  fetch_html_content http_text (u "index.html") (u "index.html") initial.

(** The record [read_month_tag] builds for an anchor with the given title. *)
Definition record_of_title (title : str) : option TradeInfo :=
  match read_month_tag {| target := Some (u "_blank"); title := Some title;
                          href_attr := Some (u "./t.html") |} with
  | Ok (t, _) => Some t
  | Raise _ => None
  end.

(** An anchor whose title holds the bulletin title after other text. *)
Definition late_title_tag : Tag :=
  {| target := Some (u "_blank"); title := Some (u "呼和浩特市" ++ month_title);
     href_attr := Some (u "./202304/t1.html") |}.

(** The sample content with a month in which no new unit was sold. *)
Definition content_no_units : str :=
  u "3月，我市商品房上市面积30.5万平方米，同比增长10.2%，环比下降5.1%。"
  ++ u "其中：商品住房上市面积20.1万平方米，同比增长8.0%，环比下降3.3%。"
  ++ u "我市新建商品房成交面积0.0万平方米，同比下降100.0%，环比下降100.0%；成交套数0套，同比下降100.0%，环比下降100.0%。"
  ++ u "我市二手房成交面积8.4万平方米，同比下降2.5%，环比上涨1.5%；成交套数90套，同比下降3.0%，环比上涨0.7%。".

(** The match of the listed commercial area sentence in [content]. *)
Definition listed_match : Match :=
  [("area_yoy", u "5.1"); ("area_yoy_trend", u "下降"); ("area_mom", u "10.2");
   ("area_mom_trend", u "增长"); ("area", u "30.5")]%string.

End Sample.


(** ** Notions used to state further properties *)

(** Some part of [content] has the shape of the pattern [r]. *)
Definition occurs (r : regex) (content : str) : Prop :=
  exists pre w post gs, content = pre ++ w ++ post /\ denotes r w gs.

(** The state [st'] comes after [st]: every non-empty cache file is still
    there with the same bytes, no file has gone, and the request log and
    [month_info_list] have only grown at their ends. *)
Definition grows (st st' : State) : Prop :=
  (forall f b bs, files st !! f = Some (b :: bs) -> files st' !! f = Some (b :: bs)) /\
  (forall f, is_Some (files st !! f) -> is_Some (files st' !! f)) /\
  (exists l, requests st' = requests st ++ l) /\
  (exists l, month_info_list st' = month_info_list st ++ l).

(** A computation that only ever moves the state forward, whether it
    returns or raises. *)
Definition monotone {A} (c : M A) : Prop := forall st, grows st (snd (c st)).


(** ** The derived series of the main block

    [area.value / unit.value] for every record, as the list comprehensions
    of the two average-area figures compute it.  A division by zero raises
    [ZeroDivisionError]; a record without house data has no [value] to read.
    The quotient is the exact one, which Python rounds to a double. *)
Inductive chart_exn :=
  | ZeroDivisionError
  | Other (e : exn).

Definition true_div (a b : Q) : chart_exn + Q :=
  if Qeq_bool b 0 then inl ZeroDivisionError else inr (a / b)%Q.

Definition avg_area_per_house (house : option HouseInfo) : chart_exn + Q :=
  match house with
  | None => inl (Other AttributeError)
  | Some h => true_div (value (residential_area h)) (value (residential_unit h))
  end.

(** A list comprehension whose element may raise: the first exception ends it. *)
Fixpoint comprehension {A B} (f : A -> chart_exn + B) (l : list A) : chart_exn + list B :=
  match l with
  | [] => inr []
  | a :: l' =>
    match f a with
    | inl e => inl e
    | inr b =>
      match comprehension f l' with
      | inl e => inl e
      | inr bs => inr (b :: bs)
      end
    end
  end.

Definition new_house_avg_area_series (l : list TradeInfo) : chart_exn + list Q :=
  comprehension (fun obj => avg_area_per_house (new_house obj)) l.

Definition old_house_avg_area_series (l : list TradeInfo) : chart_exn + list Q :=
  comprehension (fun obj => avg_area_per_house (old_house obj)) l.

(** A record that [fill_from_content] built. *)
Definition is_filled (r : TradeInfo) : Prop :=
  exists t content, fill_from_content t content = Ok r.

(** The unit count of the new-house record is zero. *)
Definition no_new_units (r : TradeInfo) : Prop :=
  exists nh, new_house r = Some nh /\ (value (commercial_unit nh) == 0)%Q.

(** The computation only appends to [month_info_list], and what it appends
    are records that [fill_from_content] built. *)
Definition appends_filled {A} (c : M A) : Prop :=
  forall st, exists new,
    month_info_list (snd (c st)) = month_info_list st ++ new /\ Forall is_filled new.

(** * Properties *)

Ltac split_all := repeat match goal with |- _ /\ _ => split end.

(** ** The sign rule *)

Lemma existsb_eqb_In (c : N) (l : str) : existsb (N.eqb c) l = true <-> In c l.
Proof.
  rewrite existsb_exists. split.
  - intros [x [Hin Heq]]. apply N.eqb_eq in Heq. now subst.
  - intros Hin. exists c. split; [assumption | apply N.eqb_refl].
Qed.

Lemma decrease_test (token : str) :
  existsb (fun char => existsb (N.eqb char) (u "下降低负")) token = true <-> decrease token.
Proof.
  unfold decrease. rewrite existsb_exists. split.
  - intros [c [Hin Hset]]. exists c. split; [assumption |].
    apply existsb_eqb_In in Hset. vm_compute in Hset. vm_compute. tauto.
  - intros [c [Hin Hset]]. exists c. split; [assumption |].
    apply existsb_eqb_In. vm_compute in Hset. vm_compute. tauto.
Qed.

Lemma get_sign_value_carries (m : Match) (name : string) (token figure : str) (v : Q) :
  group m (name ++ "_trend") = Ok token ->
  group m name = Ok figure ->
  float figure = Ok v ->
  exists y, get_sign_value m name = Ok y /\ carries y token v.
Proof.
  intros Htoken Hfigure Hfloat. unfold get_sign_value, carries.
  rewrite Htoken. cbn [rbind].
  destruct (existsb _ token) eqn:E; rewrite Hfigure; cbn [rbind]; rewrite Hfloat;
    cbn [rbind]; eexists; (split; [reflexivity |]).
  - apply decrease_test in E. split; [reflexivity | contradiction].
  - split; [| reflexivity]. intros Hd. apply decrease_test in Hd. congruence.
Qed.

Lemma BaseInfo_init_value (m : Match) (name : string) (b : BaseInfo) :
  BaseInfo_init (Some m) name = Ok b ->
  exists figure y mo,
    group m name = Ok figure /\ float figure = Ok (value b) /\
    get_sign_value m (name ++ "_yoy") = Ok y /\ yoy b = y /\
    get_sign_value m (name ++ "_mom") = Ok mo /\ mom b = mo.
Proof.
  unfold BaseInfo_init.
  destruct (group m name) as [figure |] eqn:Eg; [| discriminate]. cbn [rbind].
  destruct (float figure) as [v |] eqn:Ef; [| discriminate]. cbn [rbind].
  destruct (get_sign_value m (name ++ "_yoy")) as [y |] eqn:Ey; [| discriminate].
  destruct (get_sign_value m (name ++ "_mom")) as [mo |] eqn:Em; [| discriminate].
  cbn [rbind]. intros H. inversion H. cbn.
  exists figure, y, mo. split_all; reflexivity || assumption.
Qed.

(** C3. For a match that holds a percent figure under [name] and a trend
    token under [name_trend], [get_sign_value] returns the negated figure
    when the token contains one of 降, 负, 低, 下 and the figure itself
    otherwise; the [value] of a [BaseInfo] built from the match is the
    figure of its own group, whatever the tokens are. *)
Theorem get_sign_value_sign_rule (m : Match) (name : string) (token figure : str) (v : Q)
  (Htoken : group m (name ++ "_trend") = Ok token)
  (Hfigure : group m name = Ok figure)
  (Hfloat : float figure = Ok v) :
  (decrease token -> get_sign_value m name = Ok (- v)%Q) /\
  (~ decrease token -> get_sign_value m name = Ok v) /\
  (forall b, BaseInfo_init (Some m) name = Ok b -> value b = v).
Proof.
  destruct (get_sign_value_carries m name token figure v Htoken Hfigure Hfloat)
    as (y & Hy & Hneg & Hpos).
  split; [| split].
  - intros Hd. rewrite Hy. f_equal. now apply Hneg.
  - intros Hd. rewrite Hy. f_equal. now apply Hpos.
  - intros b Hb. apply BaseInfo_init_value in Hb.
    destruct Hb as (fig & _ & _ & Hg & Hf & _). congruence.
Qed.

(** The two fragments of the sign law: 下降 before 12.3 gives -12.3, and
    增长 before 12.3 gives +12.3. *)
Lemma get_sign_value_sign_rule_witness :
  get_sign_value [("pct_trend"%string, u "下降"); ("pct"%string, u "12.3")] "pct"
    = Ok (- 12.3)%Q /\
  get_sign_value [("pct_trend"%string, u "增长"); ("pct"%string, u "12.3")] "pct"
    = Ok 12.3%Q.
Proof.
  split.
  - apply (proj1 (get_sign_value_sign_rule
             [("pct_trend"%string, u "下降"); ("pct"%string, u "12.3")] "pct"
             (u "下降") (u "12.3") 12.3%Q eq_refl eq_refl eq_refl)).
    exists 19979%N. vm_compute. tauto.
  - apply (proj1 (proj2 (get_sign_value_sign_rule
             [("pct_trend"%string, u "增长"); ("pct"%string, u "12.3")] "pct"
             (u "增长") (u "12.3") 12.3%Q eq_refl eq_refl eq_refl))).
    intros [c [Hin Hset]]. vm_compute in Hin, Hset.
    destruct Hin as [<- | [<- | []]];
      repeat (destruct Hset as [Hset | Hset]; [discriminate Hset |]); exact Hset.
Defined.


(** ** Soundness of the matcher *)

Lemma strip_prefix_app (p s t : str) : strip_prefix p s = Some t -> s = p ++ t.
Proof.
  revert s. induction p as [| c p IH]; intros s H.
  - now inversion H.
  - destruct s as [| d s]; [discriminate |]. cbn in H.
    destruct (N.eqb_spec c d) as [-> |]; [| discriminate].
    cbn. f_equal. now apply IH.
Qed.

Lemma rep_rests_sound (cs : charset) (s t : str) :
  forall lo hi, In t (rep_rests cs lo hi s) ->
  exists w, s = w ++ t /\ forallb (mem cs) w = true /\ (lo <= List.length w)%nat /\
            match hi with Some h => (List.length w <= h)%nat | None => True end.
Proof.
  induction s as [| c s IH]; intros lo hi Hin.
  - exists []. destruct lo; cbn in Hin; [| contradiction].
    destruct Hin as [<- | []]. cbn. repeat split; [lia |]. destruct hi; [lia | exact I].
  - assert (Hstop : In t (match lo with O => [c :: s] | S _ => [] end) ->
              exists w, c :: s = w ++ t /\ forallb (mem cs) w = true /\
                (lo <= List.length w)%nat /\
                match hi with Some h => (List.length w <= h)%nat | None => True end).
    { intros H. destruct lo; [| contradiction]. destruct H as [<- | []].
      exists []. cbn. repeat split; [lia |]. destruct hi; [lia | exact I]. }
    cbn [rep_rests] in Hin.
    destruct hi as [[| h] |].
    + now apply Hstop.
    + destruct (mem cs c) eqn:Hc; [| now apply Hstop].
      apply in_app_or in Hin. destruct Hin as [Hin | Hin]; [| now apply Hstop].
      apply IH in Hin. destruct Hin as (w & -> & Hall & Hlo & Hhi).
      exists (c :: w). cbn. rewrite Hc, Hall. cbn in Hhi. repeat split; lia.
    + destruct (mem cs c) eqn:Hc; [| now apply Hstop].
      apply in_app_or in Hin. destruct Hin as [Hin | Hin]; [| now apply Hstop].
      apply IH in Hin. destruct Hin as (w & -> & Hall & Hlo & _).
      exists (c :: w). cbn. rewrite Hc, Hall. repeat split; lia.
Qed.

Lemma consumed_app (w t : str) : consumed (w ++ t) t = w.
Proof.
  unfold consumed. rewrite length_app.
  replace (List.length w + List.length t - List.length t)%nat with (List.length w) by lia.
  rewrite firstn_app, firstn_all, Nat.sub_diag. cbn. apply app_nil_r.
Qed.

(** Every way the matcher finds is a way the pattern denotes: the input is
    the matched text followed by the rest, and the groups are those bound
    by the pattern, put before the earlier ones. *)
Lemma run_sound (r : regex) :
  forall s g t g', In (t, g') (run r s g) ->
  exists w gs, s = w ++ t /\ g' = gs ++ g /\ denotes r w gs.
Proof.
  induction r as [l | cs | cs lo hi | a IHa b IHb | a IHa b IHb | name a IHa];
    intros s g t g' Hin; cbn [run] in Hin.
  - destruct (strip_prefix l s) as [t0 |] eqn:E; [| contradiction].
    destruct Hin as [Heq | []]. inversion Heq; subst.
    exists l, []. split; [now apply strip_prefix_app | now split].
  - destruct s as [| c s]; [contradiction |].
    destruct (mem cs c) eqn:Hc; [| contradiction].
    destruct Hin as [Heq | []]. inversion Heq; subst.
    exists [c], []. split; [reflexivity | split; [reflexivity |]].
    exists c. auto.
  - apply in_map_iff in Hin. destruct Hin as (t0 & Heq & Hin). inversion Heq; subst.
    apply rep_rests_sound in Hin. destruct Hin as (w & -> & Hall & Hlo & Hhi).
    exists w, []. split; [reflexivity | split; [reflexivity |]]. cbn. auto.
  - apply in_flat_map in Hin. destruct Hin as ([t1 g1] & Hin1 & Hin2).
    apply IHa in Hin1. destruct Hin1 as (w1 & gs1 & -> & -> & Ha).
    apply IHb in Hin2. destruct Hin2 as (w2 & gs2 & -> & -> & Hb).
    exists (w1 ++ w2), (gs2 ++ gs1).
    split; [now rewrite app_assoc | split; [now rewrite app_assoc |]].
    cbn. exists w1, w2, gs1, gs2. auto.
  - apply in_app_or in Hin. destruct Hin as [Hin | Hin].
    + apply IHa in Hin. destruct Hin as (w & gs & -> & -> & Ha).
      exists w, gs. cbn. auto.
    + apply IHb in Hin. destruct Hin as (w & gs & -> & -> & Hb).
      exists w, gs. cbn. auto.
  - apply in_map_iff in Hin. destruct Hin as ([t0 g0] & Heq & Hin).
    inversion Heq; subst. apply IHa in Hin. destruct Hin as (w & gs & -> & -> & Ha).
    exists w, ((name, w) :: gs). rewrite consumed_app.
    split; [reflexivity | split; [reflexivity |]]. cbn. eauto.
Qed.

Lemma match_sound (r : regex) (s : str) (m : Match) :
  match_ r s = Some m -> exists w t, s = w ++ t /\ denotes r w m.
Proof.
  unfold match_. destruct (run r s []) as [| [t g] rest] eqn:E; [discriminate |].
  intros H. inversion H; subst.
  destruct (run_sound r s [] t m) as (w & gs & -> & -> & Hd).
  { rewrite E. now left. }
  exists w, t. rewrite app_nil_r. auto.
Qed.

Lemma search_sound (r : regex) (s : str) (m : Match) :
  search r s = Some m -> exists pre w t, s = pre ++ w ++ t /\ denotes r w m.
Proof.
  induction s as [| c s IH]; cbn [search]; intros H.
  - destruct (match_ r []) as [g |] eqn:E; [| discriminate].
    inversion H; subst. apply match_sound in E. destruct E as (w & t & -> & Hd).
    exists [], w, t. auto.
  - destruct (match_ r (c :: s)) as [g |] eqn:E.
    + inversion H; subst. apply match_sound in E. destruct E as (w & t & -> & Hd).
      exists [], w, t. auto.
    + apply IH in H. destruct H as (pre & w & t & -> & Hd).
      exists (c :: pre), w, t. auto.
Qed.



(** ** Captured figures are unsigned decimals *)

Lemma digit_in_bounds (zeros : list N) (c d : N) :
  forallb (N.leb 48) zeros = true -> digit_in zeros c = Some d ->
  (48 <= c)%N /\ (d < 10)%N.
Proof.
  induction zeros as [| z zs IH]; cbn; [discriminate |].
  intros Hz H. apply andb_prop in Hz. destruct Hz as [Hz Hzs].
  destruct ((z <=? c)%N && (c <? z + 10)%N) eqn:E.
  - apply andb_prop in E. destruct E as [E1 E2].
    apply N.leb_le in Hz, E1. apply N.ltb_lt in E2. inversion H. lia.
  - now apply IH.
Qed.

Lemma digit_value_bounds (c d : N) :
  digit_value c = Some d -> (48 <= c)%N /\ (d < 10)%N.
Proof. apply digit_in_bounds. reflexivity. Qed.

Lemma isdigit_ge (c : N) : isdigit c = true -> (48 <= c)%N.
Proof.
  unfold isdigit. destruct (digit_value c) as [d |] eqn:E; [| discriminate].
  intros _. now apply digit_value_bounds in E.
Qed.

Lemma digits_value_total (w : str) :
  forallb isdigit w = true -> forall acc, exists n, digits_value acc w = Some n.
Proof.
  induction w as [| c w IH]; cbn; intros H acc; [now exists acc |].
  apply andb_prop in H. destruct H as [Hc Hw]. unfold isdigit in Hc.
  destruct (digit_value c) as [d |]; [| discriminate]. now apply IH.
Qed.

Lemma split_point_digits (w : str) :
  forallb isdigit w = true -> split_point w = (w, None).
Proof.
  induction w as [| c w IH]; cbn; intros H; [reflexivity |].
  apply andb_prop in H. destruct H as [Hc Hw]. apply isdigit_ge in Hc.
  destruct (N.eqb_spec c 46); [lia |]. now rewrite IH.
Qed.

Lemma split_point_fraction (w1 w2 : str) :
  forallb isdigit w1 = true -> split_point (w1 ++ 46%N :: w2) = (w1, Some w2).
Proof.
  induction w1 as [| c w IH]; cbn; intros H; [reflexivity |].
  apply andb_prop in H. destruct H as [Hc Hw]. apply isdigit_ge in Hc.
  destruct (N.eqb_spec c 46); [lia |]. now rewrite IH.
Qed.

Lemma float_unsigned (c : N) (w : str) (q : Q) :
  isdigit c = true -> unsigned_float (c :: w) = Some q -> float (c :: w) = Ok q.
Proof.
  intros Hc Hq. apply isdigit_ge in Hc. unfold float.
  destruct (N.eqb_spec c 45); [lia |]. destruct (N.eqb_spec c 43); [lia |].
  now rewrite Hq.
Qed.

Lemma unsigned_float_nonneg (s : str) (q : Q) :
  unsigned_float s = Some q -> (0 <= q)%Q.
Proof.
  unfold unsigned_float. destruct (split_point s) as [ip fr].
  destruct (ip ++ _); [discriminate |].
  destruct (digits_value 0 ip); [| discriminate].
  destruct (digits_value 0 _); [| discriminate].
  intros H. inversion H. unfold Qle. cbn. lia.
Qed.

(** The text of one or more digits. *)
Lemma denotes_digits (w : str) (g : Match) :
  denotes (plus Digit) w g ->
  g = [] /\ exists c w', w = c :: w' /\ isdigit c = true /\ forallb isdigit w' = true.
Proof.
  cbn. intros (Hall & Hlen & _ & ->). split; [reflexivity |].
  destruct w as [| c w']; [cbn in Hlen; lia |].
  cbn in Hall. apply andb_prop in Hall. destruct Hall. eauto.
Qed.

Lemma float_digits (w : str) (g : Match) :
  denotes (plus Digit) w g -> g = [] /\ exists q, float w = Ok q /\ (0 <= q)%Q.
Proof.
  intros H. apply denotes_digits in H. destruct H as (-> & c & w' & -> & Hc & Hw).
  split; [reflexivity |].
  assert (Hall : forallb isdigit (c :: w') = true) by (cbn; now rewrite Hc, Hw).
  destruct (digits_value_total _ Hall 0%N) as [n Hn].
  assert (Hu : unsigned_float (c :: w') = Some (Z.of_N (n * 1 + 0) # 1)).
  { unfold unsigned_float. rewrite (split_point_digits _ Hall), app_nil_r, Hn.
    reflexivity. }
  eexists. split; [apply float_unsigned; [exact Hc | exact Hu] |].
  now apply unsigned_float_nonneg in Hu.
Qed.

(** Whatever [num] matches binds no group and is read by [float] as a
    number that is not negative. *)
Lemma float_num (w : str) (g : Match) :
  denotes num w g -> g = [] /\ exists q, float w = Ok q /\ (0 <= q)%Q.
Proof.
  unfold num. cbn [seq denotes]. intros [H | H]; [| now apply float_digits].
  destruct H as (w1 & w23 & g1 & g23 & -> & -> & H1 & w2 & w3 & g2 & g3 & -> & -> & H2 & H3).
  destruct H2 as [-> ->].
  apply denotes_digits in H1. destruct H1 as (-> & c & w1' & -> & Hc & Hw1).
  apply denotes_digits in H3. destruct H3 as (-> & d & w3' & -> & Hd & Hw3).
  split; [reflexivity |].
  assert (Hall1 : forallb isdigit (c :: w1') = true) by (cbn; now rewrite Hc, Hw1).
  assert (Hall3 : forallb isdigit (d :: w3') = true) by (cbn; now rewrite Hd, Hw3).
  destruct (digits_value_total _ Hall1 0%N) as [n1 Hn1].
  destruct (digits_value_total _ Hall3 0%N) as [n3 Hn3].
  assert (Hu : exists q, unsigned_float ((c :: w1') ++ u "." ++ d :: w3') = Some q).
  { unfold unsigned_float. change (u ".") with [46%N]. cbn [app].
    change (c :: w1' ++ 46%N :: d :: w3') with ((c :: w1') ++ 46%N :: d :: w3').
    rewrite (split_point_fraction _ _ Hall1). cbn [app]. rewrite Hn1, Hn3. eauto. }
  destruct Hu as [q Hq]. exists q.
  split; [apply float_unsigned; [exact Hc | exact Hq] |].
  now apply unsigned_float_nonneg in Hq.
Qed.

Lemma denotes_trend (w : str) (g : Match) :
  denotes trend w g ->
  g = [] /\ exists c d, w = [c; d] /\ In c (u "增下上") /\ In d (u "长降涨").
Proof.
  unfold trend. cbn [denotes mem].
  intros (w1 & w2 & g1 & g2 & -> & -> & (c & -> & Hc & ->) & (d & -> & Hd & ->)).
  split; [reflexivity |]. exists c, d.
  split; [reflexivity |]. split; now apply existsb_eqb_In.
Qed.


(** ** The shape of what the patterns match *)

Ltac break_denotes H :=
  cbn [seq denotes] in H;
  repeat match goal with
         | H' : exists _, _ |- _ => destruct H'
         | H' : _ /\ _ |- _ => destruct H'
         end;
  subst;
  repeat match goal with
         | H' : denotes num _ ?g |- _ =>
           is_var g; let E := fresh in
           pose proof (proj1 (float_num _ _ H')) as E; subst g
         | H' : denotes trend _ ?g |- _ =>
           is_var g; let E := fresh in
           pose proof (proj1 (denotes_trend _ _ H')) as E; subst g
         | H' : denotes (plus Digit) _ ?g |- _ =>
           is_var g; let E := fresh in
           pose proof (proj1 (float_digits _ _ H')) as E; subst g
         end.

Lemma commercial_list_shape (w : str) (m : Match) :
  denotes commercial_list_pattern w m ->
  exists d a t1 f1 t2 f2,
    w = d ++ u "月，我市商品房上市面积" ++ a ++ u "万平方米，" ++ u "同比" ++ t1 ++ f1
          ++ u "%，" ++ u "环比" ++ t2 ++ f2 ++ u "%" /\
    m = [("area_yoy", f2); ("area_yoy_trend", t2); ("area_mom", f1);
         ("area_mom_trend", t1); ("area", a)]%string /\
    denotes num a [] /\ denotes trend t1 [] /\ denotes num f1 [] /\
    denotes trend t2 [] /\ denotes num f2 [].
Proof.
  intros H. unfold commercial_list_pattern in H. break_denotes H.
  do 6 eexists. split_all; try reflexivity; eassumption.
Qed.

Lemma residential_list_shape (w : str) (m : Match) :
  denotes residential_list_pattern w m ->
  exists a t1 f1 pct t2 f2,
    w = u "商品住房上市面积" ++ a ++ u "万平方米，" ++ u "同比" ++ t1 ++ f1
          ++ pct ++ u "，" ++ u "环比" ++ t2 ++ f2 ++ u "%" /\
    m = [("area_yoy", f2); ("area_yoy_trend", t2); ("area_mom", f1);
         ("area_mom_trend", t1); ("area", a)]%string /\
    denotes num a [] /\ denotes trend t1 [] /\ denotes num f1 [] /\
    denotes trend t2 [] /\ denotes num f2 [] /\ denotes (opt (OneOf (u "%"))) pct [].
Proof.
  intros H. unfold residential_list_pattern, opt in H. break_denotes H.
  do 6 eexists. split_all; try reflexivity; try eassumption.
  cbn. auto.
Qed.

Lemma deal_shape (prefix w : str) (m : Match) :
  denotes (build_deal_pattern prefix) w m ->
  exists a t1 f1 t2 f2 sep n t3 f3 t4 f4,
    w = prefix ++ a ++ u "万平方米，" ++ u "同比" ++ t1 ++ f1 ++ u "%，"
          ++ u "环比" ++ t2 ++ f2 ++ u "%" ++ [sep]
          ++ u "成交套数" ++ n ++ u "套，" ++ u "同比" ++ t3 ++ f3 ++ u "%，"
          ++ u "环比" ++ t4 ++ f4 ++ u "%。" /\
    m = [("unit_yoy", f4); ("unit_mom_trend", t4); ("unit_mom", f3);
         ("unit_yoy_trend", t3); ("unit", n);
         ("area_mom", f2); ("area_mom_trend", t2); ("area_yoy", f1);
         ("area_yoy_trend", t1); ("area", a)]%string /\
    In sep (u "；|。") /\
    denotes num a [] /\ denotes trend t1 [] /\ denotes num f1 [] /\
    denotes trend t2 [] /\ denotes num f2 [] /\ denotes (plus Digit) n [] /\
    denotes trend t3 [] /\ denotes num f3 [] /\ denotes trend t4 [] /\
    denotes num f4 [].
Proof.
  intros H. unfold build_deal_pattern in H. break_denotes H.
  match goal with Hm : mem _ _ = true |- _ => cbn [mem] in Hm; apply existsb_eqb_In in Hm end.
  do 11 eexists. split_all; try reflexivity; eassumption.
Qed.


(** ** What the fields of a [BaseInfo] are taken from *)

Lemma opt_percent (pct : str) :
  denotes (opt (OneOf (u "%"))) pct [] -> pct = [] \/ pct = u "%".
Proof.
  unfold opt. cbn [denotes mem]. intros (Hall & _ & Hlen & _).
  destruct pct as [| c [| d pct]]; [now left | right | cbn in Hlen; lia].
  cbn [forallb] in Hall. apply andb_prop in Hall. destruct Hall as [Hc _].
  apply existsb_eqb_In in Hc. vm_compute in Hc. destruct Hc as [<- | []]. reflexivity.
Qed.

(** A match whose groups [name], [name_yoy], [name_mom] and their trend
    tokens hold the given texts builds the triple of these figures. *)
Lemma BaseInfo_init_fields (m : Match) (name : string) (a ty fy tm fm : str) :
  group m name = Ok a ->
  group m ((name ++ "_yoy") ++ "_trend") = Ok ty -> group m (name ++ "_yoy") = Ok fy ->
  group m ((name ++ "_mom") ++ "_trend") = Ok tm -> group m (name ++ "_mom") = Ok fm ->
  (exists q, float a = Ok q /\ (0 <= q)%Q) ->
  (exists q, float fy = Ok q /\ (0 <= q)%Q) ->
  (exists q, float fm = Ok q /\ (0 <= q)%Q) ->
  exists b va vy vm,
    BaseInfo_init (Some m) name = Ok b /\
    float a = Ok va /\ float fy = Ok vy /\ float fm = Ok vm /\
    value b = va /\ (0 <= va)%Q /\ carries (yoy b) ty vy /\ carries (mom b) tm vm.
Proof.
  intros Ha Hty Hfy Htm Hfm (va & Hva & Hpos) (vy & Hvy & _) (vm & Hvm & _).
  destruct (get_sign_value_carries m _ ty fy vy Hty Hfy Hvy) as (y & Hy & Hcy).
  destruct (get_sign_value_carries m _ tm fm vm Htm Hfm Hvm) as (mo & Hmo & Hcm).
  exists {| value := va; yoy := y; mom := mo |}, va, vy, vm.
  split_all; try assumption; try reflexivity.
  unfold BaseInfo_init. rewrite Ha. cbn [rbind]. rewrite Hva. cbn [rbind].
  rewrite Hy. cbn [rbind]. rewrite Hmo. reflexivity.
Qed.


Ltac use_float H :=
  first [ exact (proj2 (float_num _ _ H)) | exact (proj2 (float_digits _ _ H)) ].

Lemma listed_commercial_fields (content : str) (m : Match) :
  search commercial_list_pattern content = Some m ->
  exists pre d a t1 f1 t2 f2 post b va v1 v2,
    content = pre ++ (d ++ u "月，我市商品房上市面积" ++ a ++ u "万平方米，"
                ++ u "同比" ++ t1 ++ f1 ++ u "%，" ++ u "环比" ++ t2 ++ f2 ++ u "%") ++ post /\
    denotes trend t1 [] /\ denotes num f1 [] /\ denotes trend t2 [] /\ denotes num f2 [] /\
    float a = Ok va /\ float f1 = Ok v1 /\ float f2 = Ok v2 /\
    BaseInfo_init (Some m) "area" = Ok b /\
    value b = va /\ (0 <= va)%Q /\ carries (yoy b) t2 v2 /\ carries (mom b) t1 v1.
Proof.
  intros H. apply search_sound in H. destruct H as (pre & w & post & -> & H).
  apply commercial_list_shape in H.
  destruct H as (d & a & t1 & f1 & t2 & f2 & -> & -> & Ha & Ht1 & Hf1 & Ht2 & Hf2).
  edestruct (BaseInfo_init_fields
               [("area_yoy", f2); ("area_yoy_trend", t2); ("area_mom", f1);
                ("area_mom_trend", t1); ("area", a)]%string "area" a t2 f2 t1 f1)
    as (b & va & v2 & v1 & Hb & Hva & Hv2 & Hv1 & Hval & Hpos & Hy & Hm);
    try reflexivity; try (use_float Ha); try (use_float Hf1); try (use_float Hf2).
  exists pre, d, a, t1, f1, t2, f2, post, b, va, v1, v2.
  split_all; (reflexivity || assumption).
Qed.

Lemma listed_residential_fields (content : str) (m : Match) :
  search residential_list_pattern content = Some m ->
  exists pre a t1 f1 pct t2 f2 post b va v1 v2,
    content = pre ++ (u "商品住房上市面积" ++ a ++ u "万平方米，"
                ++ u "同比" ++ t1 ++ f1 ++ pct ++ u "，" ++ u "环比" ++ t2 ++ f2 ++ u "%") ++ post /\
    (pct = [] \/ pct = u "%") /\
    denotes trend t1 [] /\ denotes num f1 [] /\ denotes trend t2 [] /\ denotes num f2 [] /\
    float a = Ok va /\ float f1 = Ok v1 /\ float f2 = Ok v2 /\
    BaseInfo_init (Some m) "area" = Ok b /\
    value b = va /\ (0 <= va)%Q /\ carries (yoy b) t2 v2 /\ carries (mom b) t1 v1.
Proof.
  intros H. apply search_sound in H. destruct H as (pre & w & post & -> & H).
  apply residential_list_shape in H.
  destruct H as (a & t1 & f1 & pct & t2 & f2 & -> & -> & Ha & Ht1 & Hf1 & Ht2 & Hf2 & Hp).
  apply opt_percent in Hp.
  edestruct (BaseInfo_init_fields
               [("area_yoy", f2); ("area_yoy_trend", t2); ("area_mom", f1);
                ("area_mom_trend", t1); ("area", a)]%string "area" a t2 f2 t1 f1)
    as (b & va & v2 & v1 & Hb & Hva & Hv2 & Hv1 & Hval & Hpos & Hy & Hm);
    try reflexivity; try (use_float Ha); try (use_float Hf1); try (use_float Hf2).
  exists pre, a, t1, f1, pct, t2, f2, post, b, va, v1, v2.
  split_all; (reflexivity || assumption).
Qed.

(** C10. When a listed-area pattern matches, the content holds the sentence
    with its 同比 clause (token [t1], figure [f1]) and its 环比 clause (token
    [t2], figure [f2]); the triple built from the match has the 环比 figure,
    signed by the 环比 token, as [yoy], and the 同比 figure, signed by the 同比
    token, as [mom]. *)
Theorem listed_area_clauses_interchanged (content : str) :
  (forall m, search commercial_list_pattern content = Some m ->
   exists pre d a t1 f1 t2 f2 post b v1 v2,
     content = pre ++ (d ++ u "月，我市商品房上市面积" ++ a ++ u "万平方米，"
                 ++ u "同比" ++ t1 ++ f1 ++ u "%，" ++ u "环比" ++ t2 ++ f2 ++ u "%") ++ post /\
     denotes trend t1 [] /\ denotes num f1 [] /\ denotes trend t2 [] /\ denotes num f2 [] /\
     float f1 = Ok v1 /\ float f2 = Ok v2 /\
     BaseInfo_init (Some m) "area" = Ok b /\
     carries (yoy b) t2 v2 /\ carries (mom b) t1 v1) /\
  (forall m, search residential_list_pattern content = Some m ->
   exists pre a t1 f1 pct t2 f2 post b v1 v2,
     content = pre ++ (u "商品住房上市面积" ++ a ++ u "万平方米，"
                 ++ u "同比" ++ t1 ++ f1 ++ pct ++ u "，" ++ u "环比" ++ t2 ++ f2 ++ u "%") ++ post /\
     (pct = [] \/ pct = u "%") /\
     denotes trend t1 [] /\ denotes num f1 [] /\ denotes trend t2 [] /\ denotes num f2 [] /\
     float f1 = Ok v1 /\ float f2 = Ok v2 /\
     BaseInfo_init (Some m) "area" = Ok b /\
     carries (yoy b) t2 v2 /\ carries (mom b) t1 v1).
Proof.
  split; intros m H.
  - apply listed_commercial_fields in H.
    destruct H as (pre & d & a & t1 & f1 & t2 & f2 & post & b & va & v1 & v2 & H).
    exists pre, d, a, t1, f1, t2, f2, post, b, v1, v2. tauto.
  - apply listed_residential_fields in H.
    destruct H as (pre & a & t1 & f1 & pct & t2 & f2 & post & b & va & v1 & v2 & H).
    exists pre, a, t1, f1, pct, t2, f2, post, b, v1, v2. tauto.
Qed.


(** ** Values are magnitudes *)

Lemma listed_value_nonneg (content : str) (m : Match) (b : BaseInfo) :
  search commercial_list_pattern content = Some m \/
  search residential_list_pattern content = Some m ->
  BaseInfo_init (Some m) "area" = Ok b -> (0 <= value b)%Q.
Proof.
  intros [H | H] Hb.
  - apply listed_commercial_fields in H.
    destruct H as (pre & d & a & t1 & f1 & t2 & f2 & post & b' & va & v1 & v2 & H).
    destruct H as (_ & _ & _ & _ & _ & _ & _ & _ & Hb' & Hval & Hpos & _).
    rewrite Hb' in Hb. inversion Hb. subst. assumption.
  - apply listed_residential_fields in H.
    destruct H as (pre & a & t1 & f1 & pct & t2 & f2 & post & b' & va & v1 & v2 & H).
    destruct H as (_ & _ & _ & _ & _ & _ & _ & _ & _ & Hb' & Hval & Hpos & _).
    rewrite Hb' in Hb. inversion Hb. subst. assumption.
Qed.

Lemma deal_value_nonneg (prefix content : str) (m : Match) (name : string) (b : BaseInfo) :
  search (build_deal_pattern prefix) content = Some m ->
  name = "area"%string \/ name = "unit"%string ->
  BaseInfo_init (Some m) name = Ok b -> (0 <= value b)%Q.
Proof.
  intros H Hname Hb. apply search_sound in H. destruct H as (pre & w & post & -> & H).
  apply deal_shape in H.
  destruct H as (a & t1 & f1 & t2 & f2 & sep & n & t3 & f3 & t4 & f4 & _ & -> & _ & Ha
                 & _ & _ & _ & _ & Hn & _).
  apply BaseInfo_init_value in Hb. destruct Hb as (fig & _ & _ & Hg & Hf & _).
  destruct Hname as [-> | ->]; vm_compute in Hg; inversion Hg; subst fig.
  - destruct (proj2 (float_num _ _ Ha)) as (q & Hq & Hpos). congruence.
  - destruct (proj2 (float_digits _ _ Hn)) as (q & Hq & Hpos). congruence.
Qed.

Lemma HouseInfo_init_parts (c r : option Match) (h : HouseInfo) :
  HouseInfo_init c r = Ok h ->
  BaseInfo_init c "area" = Ok (commercial_area h) /\
  BaseInfo_init c "unit" = Ok (commercial_unit h) /\
  BaseInfo_init r "area" = Ok (residential_area h) /\
  BaseInfo_init r "unit" = Ok (residential_unit h).
Proof.
  unfold HouseInfo_init.
  destruct (BaseInfo_init c "area") as [ca |]; [| discriminate]. cbn [rbind].
  destruct (BaseInfo_init c "unit") as [cu |]; [| discriminate]. cbn [rbind].
  destruct (BaseInfo_init r "area") as [ra |]; [| discriminate]. cbn [rbind].
  destruct (BaseInfo_init r "unit") as [ru |]; [| discriminate]. cbn [rbind].
  intros H. inversion H. cbn. auto.
Qed.

Lemma fill_from_content_parts (t : TradeInfo) (content : str) (r : TradeInfo) :
  fill_from_content t content = Ok r ->
  exists cl rl nh oh,
    r = {| year := year t; month := month t; href := href t;
           commercial_list_info := Some cl; residential_list_info := Some rl;
           new_house := Some nh; old_house := Some oh |} /\
    BaseInfo_init (search commercial_list_pattern content) "area" = Ok cl /\
    BaseInfo_init (search residential_list_pattern content) "area" = Ok rl /\
    HouseInfo_init (search new_commercial_deal_pattern content)
                   (search new_commercial_deal_pattern content) = Ok nh /\
    HouseInfo_init (search old_commercial_deal_pattern content)
                   (search old_commercial_deal_pattern content) = Ok oh.
Proof.
  unfold fill_from_content.
  destruct (BaseInfo_init (search commercial_list_pattern content) "area") as [cl |];
    [| discriminate]. cbn [rbind].
  destruct (BaseInfo_init (search residential_list_pattern content) "area") as [rl |];
    [| discriminate]. cbn [rbind].
  destruct (HouseInfo_init (search new_commercial_deal_pattern content) _) as [nh |];
    [| discriminate]. cbn [rbind].
  destruct (HouseInfo_init (search old_commercial_deal_pattern content) _) as [oh |];
    [| discriminate]. cbn [rbind].
  intros H. inversion H. exists cl, rl, nh, oh. auto.
Qed.

Lemma BaseInfo_init_matched (om : option Match) (name : string) (b : BaseInfo) :
  BaseInfo_init om name = Ok b -> exists m, om = Some m.
Proof. destruct om as [m |]; [eauto | discriminate]. Qed.

Lemma fill_from_content_values (t : TradeInfo) (content : str) (r : TradeInfo)
  (Hfill : fill_from_content t content = Ok r) :
  exists cl rl nh oh,
    commercial_list_info r = Some cl /\ residential_list_info r = Some rl /\
    new_house r = Some nh /\ old_house r = Some oh /\
    (0 <= value cl)%Q /\ (0 <= value rl)%Q /\
    (0 <= value (commercial_area nh))%Q /\ (0 <= value (commercial_unit nh))%Q /\
    (0 <= value (residential_area nh))%Q /\ (0 <= value (residential_unit nh))%Q /\
    (0 <= value (commercial_area oh))%Q /\ (0 <= value (commercial_unit oh))%Q /\
    (0 <= value (residential_area oh))%Q /\ (0 <= value (residential_unit oh))%Q.
Proof.
  apply fill_from_content_parts in Hfill.
  destruct Hfill as (cl & rl & nh & oh & -> & Hcl & Hrl & Hnh & Hoh).
  exists cl, rl, nh, oh. cbn.
  apply HouseInfo_init_parts in Hnh, Hoh.
  destruct Hnh as (Hn1 & Hn2 & Hn3 & Hn4). destruct Hoh as (Ho1 & Ho2 & Ho3 & Ho4).
  destruct (BaseInfo_init_matched _ _ _ Hcl) as [mc Emc].
  destruct (BaseInfo_init_matched _ _ _ Hrl) as [mr Emr].
  destruct (BaseInfo_init_matched _ _ _ Hn1) as [mn Emn].
  destruct (BaseInfo_init_matched _ _ _ Ho1) as [mo Emo].
  rewrite Emc in Hcl. rewrite Emr in Hrl.
  rewrite Emn in Hn1, Hn2, Hn3, Hn4. rewrite Emo in Ho1, Ho2, Ho3, Ho4.
  split_all; try reflexivity.
  - eapply listed_value_nonneg; [left; exact Emc | exact Hcl].
  - eapply listed_value_nonneg; [right; exact Emr | exact Hrl].
  - eapply deal_value_nonneg; [exact Emn | now left | exact Hn1].
  - eapply deal_value_nonneg; [exact Emn | now right | exact Hn2].
  - eapply deal_value_nonneg; [exact Emn | now left | exact Hn3].
  - eapply deal_value_nonneg; [exact Emn | now right | exact Hn4].
  - eapply deal_value_nonneg; [exact Emo | now left | exact Ho1].
  - eapply deal_value_nonneg; [exact Emo | now right | exact Ho2].
  - eapply deal_value_nonneg; [exact Emo | now left | exact Ho3].
  - eapply deal_value_nonneg; [exact Emo | now right | exact Ho4].
Qed.

(** What a transaction pattern matches, and the two triples built from the
    match.  The area triple takes each figure with the token of its own
    clause.  The unit triple takes as [yoy] the 环比 figure with the 同比
    token, and as [mom] the 同比 figure with the 环比 token. *)
Lemma deal_fields (prefix content : str) (m : Match) :
  search (build_deal_pattern prefix) content = Some m ->
  exists pre a t1 f1 t2 f2 sep n t3 f3 t4 f4 post,
    content = pre ++ (prefix ++ a ++ u "万平方米，" ++ u "同比" ++ t1 ++ f1 ++ u "%，"
                ++ u "环比" ++ t2 ++ f2 ++ u "%" ++ [sep]
                ++ u "成交套数" ++ n ++ u "套，" ++ u "同比" ++ t3 ++ f3 ++ u "%，"
                ++ u "环比" ++ t4 ++ f4 ++ u "%。") ++ post /\
    exists ba bu v1 v2 v3 v4,
      float f1 = Ok v1 /\ float f2 = Ok v2 /\ float f3 = Ok v3 /\ float f4 = Ok v4 /\
      BaseInfo_init (Some m) "area" = Ok ba /\ float a = Ok (value ba) /\
      (0 <= value ba)%Q /\ carries (yoy ba) t1 v1 /\ carries (mom ba) t2 v2 /\
      BaseInfo_init (Some m) "unit" = Ok bu /\ float n = Ok (value bu) /\
      (0 <= value bu)%Q /\ carries (yoy bu) t3 v4 /\ carries (mom bu) t4 v3.
Proof.
  intros H. apply search_sound in H. destruct H as (pre & w & post & -> & H).
  apply deal_shape in H.
  destruct H as (a & t1 & f1 & t2 & f2 & sep & n & t3 & f3 & t4 & f4 & -> & -> & _ & Ha
                 & _ & Hf1 & _ & Hf2 & Hn & _ & Hf3 & _ & Hf4).
  exists pre, a, t1, f1, t2, f2, sep, n, t3, f3, t4, f4, post.
  split; [reflexivity |].
  match goal with |- context [BaseInfo_init (Some ?m0) "area"] => set (m := m0) end.
  edestruct (BaseInfo_init_fields m "area" a t1 f1 t2 f2)
    as (ba & va & v1 & v2 & Hba & Hva & Hv1 & Hv2 & Hvala & Hposa & Hya & Hma);
    try reflexivity; try (use_float Ha); try (use_float Hf1); try (use_float Hf2).
  edestruct (BaseInfo_init_fields m "unit" n t3 f4 t4 f3)
    as (bu & vn & v4 & v3 & Hbu & Hvn & Hv4 & Hv3 & Hvalu & Hposu & Hyu & Hmu);
    try reflexivity; try (use_float Hn); try (use_float Hf3); try (use_float Hf4).
  exists ba, bu, v1, v2, v3, v4. subst va vn.
  split_all; assumption.
Qed.

Lemma HouseInfo_init_total (prefix content : str) (m : Match) :
  search (build_deal_pattern prefix) content = Some m ->
  exists h, HouseInfo_init (Some m) (Some m) = Ok h.
Proof.
  intros H. apply deal_fields in H.
  destruct H as (pre & a & t1 & f1 & t2 & f2 & sep & n & t3 & f3 & t4 & f4 & post & _
                 & ba & bu & v1 & v2 & v3 & v4 & _ & _ & _ & _ & Hba & _ & _ & _ & _
                 & Hbu & _).
  unfold HouseInfo_init. rewrite Hba, Hbu. cbn [rbind]. eauto.
Qed.

(** C6. When the four patterns that [fill_from_content] searches all find a
    match in the content string, it returns a record, with its two
    listed-area triples and its two house records, and the [value] of each
    of their triples is at least zero. *)
Theorem fill_from_content_values_nonneg (t : TradeInfo) (content : str)
  (Hcl : search commercial_list_pattern content <> None)
  (Hrl : search residential_list_pattern content <> None)
  (Hnew : search new_commercial_deal_pattern content <> None)
  (Hold : search old_commercial_deal_pattern content <> None) :
  exists r cl rl nh oh,
    fill_from_content t content = Ok r /\
    commercial_list_info r = Some cl /\ residential_list_info r = Some rl /\
    new_house r = Some nh /\ old_house r = Some oh /\
    (0 <= value cl)%Q /\ (0 <= value rl)%Q /\
    (0 <= value (commercial_area nh))%Q /\ (0 <= value (commercial_unit nh))%Q /\
    (0 <= value (residential_area nh))%Q /\ (0 <= value (residential_unit nh))%Q /\
    (0 <= value (commercial_area oh))%Q /\ (0 <= value (commercial_unit oh))%Q /\
    (0 <= value (residential_area oh))%Q /\ (0 <= value (residential_unit oh))%Q.
Proof.
  assert (Hfill : exists r, fill_from_content t content = Ok r).
  { unfold fill_from_content.
    destruct (search commercial_list_pattern content) as [mc |] eqn:Ec; [| contradiction].
    destruct (search residential_list_pattern content) as [mr |] eqn:Er; [| contradiction].
    destruct (search new_commercial_deal_pattern content) as [mn |] eqn:En;
      [| contradiction].
    destruct (search old_commercial_deal_pattern content) as [mo |] eqn:Eo;
      [| contradiction].
    apply listed_commercial_fields in Ec.
    destruct Ec as (? & ? & ? & ? & ? & ? & ? & ? & bc & ? & ? & ? & Hc).
    destruct Hc as (_ & _ & _ & _ & _ & _ & _ & _ & -> & _).
    apply listed_residential_fields in Er.
    destruct Er as (? & ? & ? & ? & ? & ? & ? & ? & br & ? & ? & ? & Hr).
    destruct Hr as (_ & _ & _ & _ & _ & _ & _ & _ & _ & -> & _).
    destruct (HouseInfo_init_total _ _ _ En) as [nh ->].
    destruct (HouseInfo_init_total _ _ _ Eo) as [oh ->].
    cbn [rbind]. eauto. }
  destruct Hfill as [r Hr]. exists r.
  destruct (fill_from_content_values t content r Hr) as (cl & rl & nh & oh & H).
  exists cl, rl, nh, oh. split; [exact Hr | exact H].
Qed.

(** ** The residential fields repeat the commercial ones *)

(** C4. In every record that [fill_from_content] builds, both house records
    come from the search of the commercial-prefixed pattern alone, given as
    the commercial and as the residential match, and so the residential area
    and unit triples equal the commercial ones, for the new and for the
    resale house record. *)
Theorem residential_fields_equal_commercial (t : TradeInfo) (content : str) (r : TradeInfo)
  (Hfill : fill_from_content t content = Ok r) :
  exists nh oh,
    new_house r = Some nh /\ old_house r = Some oh /\
    HouseInfo_init (search new_commercial_deal_pattern content)
                   (search new_commercial_deal_pattern content) = Ok nh /\
    HouseInfo_init (search old_commercial_deal_pattern content)
                   (search old_commercial_deal_pattern content) = Ok oh /\
    residential_area nh = commercial_area nh /\
    residential_unit nh = commercial_unit nh /\
    residential_area oh = commercial_area oh /\
    residential_unit oh = commercial_unit oh.
Proof.
  apply fill_from_content_parts in Hfill.
  destruct Hfill as (cl & rl & nh & oh & -> & Hcl & Hrl & Hnh & Hoh).
  exists nh, oh. cbn. split_all; try reflexivity; try assumption.
  all: apply HouseInfo_init_parts in Hnh, Hoh;
    destruct Hnh as (Hn1 & Hn2 & Hn3 & Hn4); destruct Hoh as (Ho1 & Ho2 & Ho3 & Ho4);
    congruence.
Qed.


(** ** The sample bulletin *)

(** On the sample content the listed commercial sentence reads 同比增长10.2%,
    环比下降5.1%; the triple has [yoy = -5.1] and [mom = 10.2]. *)
Lemma listed_area_clauses_interchanged_witness :
  search commercial_list_pattern Sample.content = Some Sample.listed_match /\
  BaseInfo_init (Some Sample.listed_match) "area"
    = Ok {| value := 30.5; yoy := (- 5.1)%Q; mom := 10.2 |} /\
  exists pre d a t1 f1 t2 f2 post b v1 v2,
    Sample.content
      = pre ++ (d ++ u "月，我市商品房上市面积" ++ a ++ u "万平方米，"
          ++ u "同比" ++ t1 ++ f1 ++ u "%，" ++ u "环比" ++ t2 ++ f2 ++ u "%") ++ post /\
    denotes trend t1 [] /\ denotes num f1 [] /\ denotes trend t2 [] /\ denotes num f2 [] /\
    float f1 = Ok v1 /\ float f2 = Ok v2 /\
    BaseInfo_init (Some Sample.listed_match) "area" = Ok b /\
    carries (yoy b) t2 v2 /\ carries (mom b) t1 v1.
Proof.
  assert (H : search commercial_list_pattern Sample.content = Some Sample.listed_match)
    by (vm_compute; reflexivity).
  split; [exact H |]. split; [vm_compute; reflexivity |].
  exact (proj1 (listed_area_clauses_interchanged Sample.content) Sample.listed_match H).
Defined.

Lemma fill_from_content_values_nonneg_witness :
  exists r cl rl nh oh,
    fill_from_content Sample.trade_info Sample.content = Ok r /\
    commercial_list_info r = Some cl /\ residential_list_info r = Some rl /\
    new_house r = Some nh /\ old_house r = Some oh /\
    (0 <= value cl)%Q /\ (0 <= value rl)%Q /\
    (0 <= value (commercial_area nh))%Q /\ (0 <= value (commercial_unit nh))%Q /\
    (0 <= value (residential_area nh))%Q /\ (0 <= value (residential_unit nh))%Q /\
    (0 <= value (commercial_area oh))%Q /\ (0 <= value (commercial_unit oh))%Q /\
    (0 <= value (residential_area oh))%Q /\ (0 <= value (residential_unit oh))%Q.
Proof.
  apply (fill_from_content_values_nonneg Sample.trade_info Sample.content);
    vm_compute; discriminate.
Defined.

Lemma residential_fields_equal_commercial_witness :
  exists r nh oh,
    fill_from_content Sample.trade_info Sample.content = Ok r /\
    new_house r = Some nh /\ old_house r = Some oh /\
    HouseInfo_init (search new_commercial_deal_pattern Sample.content)
                   (search new_commercial_deal_pattern Sample.content) = Ok nh /\
    HouseInfo_init (search old_commercial_deal_pattern Sample.content)
                   (search old_commercial_deal_pattern Sample.content) = Ok oh /\
    residential_area nh = commercial_area nh /\
    residential_unit nh = commercial_unit nh /\
    residential_area oh = commercial_area oh /\
    residential_unit oh = commercial_unit oh.
Proof.
  destruct (fill_from_content Sample.trade_info Sample.content) as [r | e] eqn:E;
    [| vm_compute in E; discriminate E].
  destruct (residential_fields_equal_commercial Sample.trade_info Sample.content r E)
    as (nh & oh & H).
  exists r, nh, oh. split; [reflexivity | exact H].
Defined.

(** C1. On the example content string the search of the new-commercial
    pattern succeeds and the house record built from it has
    [commercial_area = {12.5, +3.2, -1.1}] but
    [commercial_unit = {150, +0.5, -2.0}]: for the unit count the 同比 clause
    captures its figure under [unit_mom] and its token under [unit_yoy_trend],
    and the 环比 clause the other way round, so each unit figure gets the
    other clause's label and sign. *)
Theorem new_commercial_sentence_unit_fields_crossed :
  HouseInfo_init (search new_commercial_deal_pattern Sample.new_commercial_sentence)
                 (search new_commercial_deal_pattern Sample.new_commercial_sentence)
  = Ok {| commercial_area := {| value := 12.5; yoy := 3.2; mom := (- 1.1)%Q |};
          commercial_unit := {| value := 150; yoy := 0.5; mom := (- 2.0)%Q |};
          residential_area := {| value := 12.5; yoy := 3.2; mom := (- 1.1)%Q |};
          residential_unit := {| value := 150; yoy := 0.5; mom := (- 2.0)%Q |} |}.
Proof. vm_compute. reflexivity. Qed.

(** C2. The sample content has no resale-residential sentence (the
    residential-prefixed resale pattern finds nothing in it), and yet the
    loop body fills the record, resale house record included, and appends
    it to [month_info_list]. *)
Theorem month_without_resale_residential_kept :
  search old_residential_deal_pattern Sample.content = None /\
  exists st r oh,
    Sample.run_month_tag = (Ok tt, st) /\
    month_info_list st = [r] /\
    year r = u "2023" /\ month r = u "3" /\
    old_house r = Some oh /\
    residential_area oh = {| value := 8.4; yoy := (- 2.5)%Q; mom := 1.5 |} /\
    residential_unit oh = {| value := 90; yoy := (- 0.7)%Q; mom := 3.0 |}.
Proof.
  split; [vm_compute; reflexivity |].
  destruct Sample.run_month_tag as [res st] eqn:E.
  assert (Hres : res = Ok tt) by (apply (f_equal fst) in E; vm_compute in E; congruence).
  assert (Hl : month_info_list st
               = month_info_list (snd Sample.run_month_tag)) by (now rewrite E).
  subst res. vm_compute in Hl.
  eexists st, _, _. split; [reflexivity |]. split; [exact Hl |].
  split_all; vm_compute; reflexivity.
Qed.


(** ** The page cache *)

Lemma fetch_html_content_hit (http_text : str -> option str) (dump_file suffix : str)
    (st : State) (b : byte) (bs : list byte) :
  files st !! dump_file = Some (b :: bs) ->
  fetch_html_content http_text dump_file suffix st = (Ok (Bytes (b :: bs)), st).
Proof. intros H. unfold fetch_html_content. now rewrite H. Qed.

Lemma fetch_html_content_miss (http_text : str -> option str) (dump_file suffix : str)
    (st : State) :
  files st !! dump_file = None \/ files st !! dump_file = Some [] ->
  fetch_html_content http_text dump_file suffix st =
  let st1 := {| files := files st; requests := requests st ++ [base_url ++ suffix];
                month_info_list := month_info_list st |} in
  match http_text (base_url ++ suffix) with
  | None => (Raise ClientError, st1)
  | Some html =>
    match encode_utf8 html with
    | Some bytes =>
      (Ok (Text html),
       {| files := <[dump_file := bytes]> (files st);
          requests := requests st ++ [base_url ++ suffix];
          month_info_list := month_info_list st |})
    | None =>
      (Raise UnicodeEncodeError,
       {| files := <[dump_file := []]> (files st);
          requests := requests st ++ [base_url ++ suffix];
          month_info_list := month_info_list st |})
    end
  end.
Proof.
  intros H. unfold fetch_html_content.
  assert (E : match files st !! dump_file with
              | Some (b :: bs) => False
              | _ => True
              end) by (destruct H as [-> | ->]; exact I).
  unfold bind, fetch_content, write_file, ret, raise.
  destruct (files st !! dump_file) as [[| b bs] |]; try contradiction;
    (destruct (http_text _) as [html |]; [| reflexivity];
     cbn; destruct (encode_utf8 html) as [bytes |]; cbn; [| reflexivity];
     now rewrite insert_insert_eq).
Qed.

Lemma fetch_html_content_list (http_text : str -> option str) (dump_file suffix : str)
    (st : State) :
  month_info_list (snd (fetch_html_content http_text dump_file suffix st))
  = month_info_list st.
Proof.
  destruct (files st !! dump_file) as [[| b bs] |] eqn:E.
  - rewrite fetch_html_content_miss by auto. cbn.
    destruct (http_text _); [destruct (encode_utf8 _) |]; reflexivity.
  - now rewrite (fetch_html_content_hit _ _ _ _ b bs).
  - rewrite fetch_html_content_miss by auto. cbn.
    destruct (http_text _); [destruct (encode_utf8 _) |]; reflexivity.
Qed.

(** C7, as the code has it.  A non-empty cache file is returned as stored
    and the state is untouched.  A missing or empty file leads to one GET on
    the base URL followed by the remote path; the response text, encoded as
    UTF-8, replaces the file, and the value returned is the response text
    itself, a [str].  The request log grows exactly in the second case. *)
Theorem fetch_html_content_contract (http_text : str -> option str)
    (dump_file suffix : str) (st : State) :
  (forall b bs, files st !! dump_file = Some (b :: bs) ->
     fetch_html_content http_text dump_file suffix st = (Ok (Bytes (b :: bs)), st)) /\
  (files st !! dump_file = None \/ files st !! dump_file = Some [] ->
   forall html bytes,
     http_text (base_url ++ suffix) = Some html -> encode_utf8 html = Some bytes ->
     fetch_html_content http_text dump_file suffix st =
     (Ok (Text html),
      {| files := <[dump_file := bytes]> (files st);
         requests := requests st ++ [base_url ++ suffix];
         month_info_list := month_info_list st |})) /\
  (requests (snd (fetch_html_content http_text dump_file suffix st)) <> requests st
   <-> files st !! dump_file = None \/ files st !! dump_file = Some []).
Proof.
  split; [| split].
  - intros b bs H. now apply fetch_html_content_hit.
  - intros H html bytes Hh He. rewrite fetch_html_content_miss by assumption.
    cbn. now rewrite Hh, He.
  - split.
    + intros Hreq. destruct (files st !! dump_file) as [[| b bs] |] eqn:E; auto.
      rewrite (fetch_html_content_hit _ _ _ _ b bs E) in Hreq. now contradiction Hreq.
    + intros H. rewrite fetch_html_content_miss by assumption. cbn.
      assert (Hne : requests st ++ [base_url ++ suffix] <> requests st).
      { intros Heq. apply (f_equal (@List.length str)) in Heq.
        rewrite length_app in Heq. cbn in Heq. lia. }
      destruct (http_text _); [destruct (encode_utf8 _) |]; exact Hne.
Qed.

Lemma fetch_html_content_contract_witness :
  exists bytes st,
    encode_utf8 Sample.index_html = Some bytes /\
    Sample.run_fetch = (Ok (Text Sample.index_html), st) /\
    files st !! u "index.html" = Some bytes /\
    requests st = [base_url ++ u "index.html"] /\
    fetch_html_content Sample.http_text (u "index.html") (u "index.html") st
      = (Ok (Bytes bytes), st).
Proof.
  destruct (encode_utf8 Sample.index_html) as [bytes |] eqn:E;
    [| vm_compute in E; discriminate E].
  pose proof (fetch_html_content_contract Sample.http_text (u "index.html")
                (u "index.html") Sample.initial) as (_ & Hmiss & _).
  specialize (Hmiss (or_introl (lookup_empty _)) Sample.index_html bytes).
  assert (Hh : Sample.http_text (base_url ++ u "index.html") = Some Sample.index_html)
    by (vm_compute; reflexivity).
  specialize (Hmiss Hh E).
  eexists bytes, _. split; [reflexivity |]. split; [exact Hmiss |].
  split; [apply lookup_insert_eq |]. split; [reflexivity |].
  destruct bytes as [| b bs]; [vm_compute in E; discriminate E |].
  apply fetch_html_content_hit. apply lookup_insert_eq.
Defined.

(** On a miss the value returned is the [str] of the response, which is not
    the [bytes] written to the file. *)
Lemma fetch_html_content_returns_text :
  exists bytes st,
    files Sample.initial !! u "index.html" = None /\
    encode_utf8 Sample.index_html = Some bytes /\
    Sample.run_fetch = (Ok (Text Sample.index_html), st) /\
    files st !! u "index.html" = Some bytes /\
    fst Sample.run_fetch <> Ok (Bytes bytes).
Proof.
  destruct (encode_utf8 Sample.index_html) as [bytes |] eqn:E;
    [| vm_compute in E; discriminate E].
  assert (Hrun : Sample.run_fetch =
            (Ok (Text Sample.index_html),
             {| files := <[u "index.html" := bytes]> ∅;
                requests := [base_url ++ u "index.html"];
                month_info_list := [] |})).
  { unfold Sample.run_fetch.
    rewrite fetch_html_content_miss by (left; apply lookup_empty).
    cbn. replace (Sample.http_text (base_url ++ u "index.html"))
      with (Some Sample.index_html) by (vm_compute; reflexivity).
    now rewrite E. }
  eexists bytes, _. split; [apply lookup_empty |]. split; [reflexivity |].
  split; [exact Hrun |]. split; [apply lookup_insert_eq |].
  rewrite Hrun. cbn. discriminate.
Qed.


(** ** The index page *)

Lemma title_shape (w : str) (m : Match) :
  denotes title_pattern w m ->
  exists y mo rest,
    w = y ++ u "年" ++ mo ++ u "月" ++ rest /\
    m = [("2", mo); ("1", y)]%string /\
    List.length y = 4%nat /\ forallb isdigit y = true /\
    (1 <= List.length mo <= 2)%nat /\ forallb isdigit mo = true.
Proof.
  intros H. unfold title_pattern, star in H. break_denotes H.
  cbn [mem] in *.
  do 3 eexists. split_all; try reflexivity; try eassumption; lia.
Qed.

(** C9, as the code has it.  For an anchor whose title the pattern matches
    from its start, the title begins with four digits, 年, one or two digits
    and 月; the record has those two digit groups as year and month, and as
    [href] the attribute with the blanks around it stripped and one
    leading [./] removed. *)
Theorem read_month_tag_fields (month_tag : Tag) (ti h : str) (m : Match)
  (Htitle : title month_tag = Some ti)
  (Hhref : href_attr month_tag = Some h)
  (Hmatch : match_ title_pattern ti = Some m) :
  exists y mo rest,
    ti = y ++ u "年" ++ mo ++ u "月" ++ rest /\
    List.length y = 4%nat /\ forallb isdigit y = true /\
    (1 <= List.length mo <= 2)%nat /\ forallb isdigit mo = true /\
    read_month_tag month_tag
    = Ok ({| year := y; month := mo; href := removeprefix (u "./") (strip h);
             commercial_list_info := None; residential_list_info := None;
             new_house := None; old_house := None |}, ti).
Proof.
  unfold read_month_tag. rewrite Htitle, Hhref, Hmatch.
  apply match_sound in Hmatch. destruct Hmatch as (w & t & -> & Hd).
  apply title_shape in Hd.
  destruct Hd as (y & mo & rest & -> & -> & Hy & Hyd & Hmo & Hmod).
  exists y, mo, (rest ++ t). split_all; try assumption; try lia.
  - now rewrite <- !app_assoc.
  - reflexivity.
Qed.

Lemma read_month_tag_fields_witness :
  exists y mo rest,
    Sample.month_title = y ++ u "年" ++ mo ++ u "月" ++ rest /\
    List.length y = 4%nat /\ forallb isdigit y = true /\
    (1 <= List.length mo <= 2)%nat /\ forallb isdigit mo = true /\
    read_month_tag Sample.month_tag
    = Ok ({| year := y; month := mo;
             href := removeprefix (u "./") (strip (u "./202304/t1.html"));
             commercial_list_info := None; residential_list_info := None;
             new_house := None; old_house := None |}, Sample.month_title).
Proof.
  destruct (match_ title_pattern Sample.month_title) as [m |] eqn:E;
    [| vm_compute in E; discriminate E].
  exact (read_month_tag_fields Sample.month_tag Sample.month_title
           (u "./202304/t1.html") m eq_refl eq_refl E).
Defined.

(** The [href] of the record is not the attribute as written: the sample
    anchor has [./202304/t1.html], the record [202304/t1.html]; and its year
    and month are the texts 2023 and 3. *)
Lemma read_month_tag_href_not_verbatim :
  exists t,
    read_month_tag Sample.month_tag = Ok (t, Sample.month_title) /\
    href_attr Sample.month_tag = Some (u "./202304/t1.html") /\
    href t = u "202304/t1.html" /\
    href t <> u "./202304/t1.html" /\
    year t = u "2023" /\ month t = u "3".
Proof.
  eexists. split; [vm_compute; reflexivity |]. split; [reflexivity |].
  split; [vm_compute; reflexivity |]. split; [| split; vm_compute; reflexivity].
  vm_compute. discriminate.
Qed.

(** An anchor whose title holds the pattern after other text passes the
    filter of [find_all], which searches, but [re.match] finds nothing at
    the start of the title and the loop body raises outside its [try]. *)
Lemma read_month_tag_title_not_at_start :
  is_month_tag Sample.late_title_tag = true /\
  read_month_tag Sample.late_title_tag = Raise AttributeError /\
  fst (process_month_tag Sample.http_text Sample.soup_para_text (u ".")
         Sample.late_title_tag Sample.initial) = Raise AttributeError.
Proof. split_all; vm_compute; reflexivity. Qed.

(** ** The result list *)

Lemma fill_month_trade_info_result (http_text : str -> option str)
    (soup_para_text : html_content -> option str) (script_dir : str)
    (t : TradeInfo) (dump_file : option str) (st st1 : State) (filled : TradeInfo) :
  fill_month_trade_info http_text soup_para_text script_dir t dump_file st
    = (Ok filled, st1) ->
  month_info_list st1 = month_info_list st /\
  year filled = year t /\ month filled = month t /\ href filled = href t.
Proof.
  unfold fill_month_trade_info, bind. intros H.
  match type of H with
  | context [fetch_html_content ?h ?d ?x st] =>
    pose proof (fetch_html_content_list h d x st) as Hl;
    destruct (fetch_html_content h d x st) as [[html | e] st0]
  end; [| discriminate].
  cbn in Hl. destruct (soup_para_text html) as [content |]; [| discriminate].
  unfold lift in H. inversion H; subst.
  match goal with
  | E : fill_from_content _ _ = Ok _ |- _ =>
    apply fill_from_content_parts in E; destruct E as (cl & rl & nh & oh & -> & _)
  end.
  cbn. auto.
Qed.

(** C8, as the code has it.  When the record of an anchor is filled, the
    loop body puts it at the end of [month_info_list] without looking at the
    records already there; year and month are those read from the title. *)
Theorem process_month_tag_appends (http_text : str -> option str)
    (soup_para_text : html_content -> option str) (script_dir : str)
    (month_tag : Tag) (t filled : TradeInfo) (ti : str) (st st1 : State)
  (Hread : read_month_tag month_tag = Ok (t, ti))
  (Hfill : fill_month_trade_info http_text soup_para_text script_dir t
             (Some (ti ++ u ".html")) st = (Ok filled, st1)) :
  process_month_tag http_text soup_para_text script_dir month_tag st
  = (Ok tt, {| files := files st1; requests := requests st1;
               month_info_list := month_info_list st ++ [filled] |}) /\
  month_key filled = month_key t.
Proof.
  destruct (fill_month_trade_info_result _ _ _ _ _ _ _ _ Hfill) as (Hl & Hy & Hmo & _).
  split; [| unfold month_key; congruence].
  unfold process_month_tag, bind, lift, try_except. rewrite Hread.
  unfold bind. rewrite Hfill. unfold append_month. now rewrite Hl.
Qed.


(** The anchor of the sample month, met a second time when its record is
    already in the list, adds a second record with the same year and month. *)
Lemma process_month_tag_appends_witness :
  exists r filled st2,
    month_info_list (snd Sample.run_month_tag) = [r] /\
    process_month_tag Sample.http_text Sample.soup_para_text (u ".") Sample.month_tag
      (snd Sample.run_month_tag) = (Ok tt, st2) /\
    month_info_list st2 = [r; filled] /\
    month_key filled = month_key r.
Proof.
  assert (Hread : read_month_tag Sample.month_tag
                  = Ok (Sample.trade_info, Sample.month_title))
    by (vm_compute; reflexivity).
  destruct (fill_month_trade_info Sample.http_text Sample.soup_para_text (u ".")
              Sample.trade_info (Some (Sample.month_title ++ u ".html"))
              (snd Sample.run_month_tag)) as [[filled | e] st1] eqn:E;
    [| apply (f_equal fst) in E; vm_compute in E; discriminate E].
  destruct (process_month_tag_appends Sample.http_text Sample.soup_para_text (u ".")
              Sample.month_tag Sample.trade_info filled Sample.month_title
              (snd Sample.run_month_tag) st1 Hread E) as [Hrun Hkey].
  destruct (month_info_list (snd Sample.run_month_tag)) as [| r [| r' l]] eqn:El;
    [vm_compute in El; discriminate El | | vm_compute in El; discriminate El].
  exists r, filled. eexists. split; [reflexivity |]. split; [exact Hrun |].
  split; [reflexivity |]. rewrite Hkey.
  assert (Hr : map month_key (month_info_list (snd Sample.run_month_tag))
               = [month_key Sample.trade_info]) by (vm_compute; reflexivity).
  rewrite El in Hr. cbn [map] in Hr. injection Hr as Hy Hmo.
  unfold month_key. rewrite Hy, Hmo. reflexivity.
Defined.

(** On the sample site the month is linked from two index pages, and the
    final list holds two records with the same year and month. *)
Lemma month_key_not_unique :
  fst Sample.run_site = Ok tt /\
  map month_key (month_info_list (snd Sample.run_site))
    = [(u "2023", u "3"); (u "2023", u "3")] /\
  ~ NoDup (map month_key (month_info_list (snd Sample.run_site))).
Proof.
  assert (H : map month_key (month_info_list (snd Sample.run_site))
              = [(u "2023", u "3"); (u "2023", u "3")]) by (vm_compute; reflexivity).
  split; [vm_compute; reflexivity |]. split; [exact H |].
  rewrite H. intros Hnd. inversion Hnd as [| x l Hnotin _]; subst.
  apply Hnotin. now left.
Qed.

(** ** The x axis *)

(** C5, as the code has it.  The three records sort into 2022-11, 2023-1,
    2023-3, and each label is the year text followed by the month text as
    the title wrote it: 202211, 20231, 20233 for months written 1 and 3, and
    202211, 202301, 202303 when the titles write 01 and 03. *)
Theorem x_labels_of_three_months (r1 r2 r3 : TradeInfo) (m1 m3 : str)
  (Hm : (m1 = u "1" /\ m3 = u "3") \/ (m1 = u "01" /\ m3 = u "03"))
  (H1 : month_key r1 = (u "2023", m3))
  (H2 : month_key r2 = (u "2022", u "11"))
  (H3 : month_key r3 = (u "2023", m1)) :
  sort_months [r1; r2; r3] = [r2; r3; r1] /\
  x_labels (sort_months [r1; r2; r3]) = [u "202211"; u "2023" ++ m1; u "2023" ++ m3].
Proof.
  destruct r1, r2, r3. unfold month_key in *. cbn in H1, H2, H3.
  inversion H1; inversion H2; inversion H3; subst.
  destruct Hm as [[-> ->] | [-> ->]]; split; vm_compute; reflexivity.
Qed.

Lemma x_labels_of_three_months_witness :
  exists r1 r2 r3,
    Sample.record_of_title (u "2023年3月房地产市场运行情况") = Some r1 /\
    Sample.record_of_title (u "2022年11月房地产市场运行情况") = Some r2 /\
    Sample.record_of_title (u "2023年1月房地产市场运行情况") = Some r3 /\
    sort_months [r1; r2; r3] = [r2; r3; r1] /\
    x_labels (sort_months [r1; r2; r3]) = [u "202211"; u "2023" ++ u "1"; u "2023" ++ u "3"].
Proof.
  destruct (Sample.record_of_title (u "2023年3月房地产市场运行情况")) as [r1 |] eqn:E1;
    [| vm_compute in E1; discriminate E1].
  destruct (Sample.record_of_title (u "2022年11月房地产市场运行情况")) as [r2 |] eqn:E2;
    [| vm_compute in E2; discriminate E2].
  destruct (Sample.record_of_title (u "2023年1月房地产市场运行情况")) as [r3 |] eqn:E3;
    [| vm_compute in E3; discriminate E3].
  exists r1, r2, r3. split_all; try reflexivity.
  all: apply (x_labels_of_three_months r1 r2 r3 (u "1") (u "3"));
    [ left; split; reflexivity
    | vm_compute in E1; inversion E1; vm_compute; reflexivity
    | vm_compute in E2; inversion E2; vm_compute; reflexivity
    | vm_compute in E3; inversion E3; vm_compute; reflexivity ].
Defined.

(** The records the index page builds for 2023年3月, 2022年11月 and 2023年1月
    give the labels 202211, 20231, 20233, not 202211, 202301, 202303. *)
Lemma x_labels_not_padded :
  exists r1 r2 r3,
    Sample.record_of_title (u "2023年3月房地产市场运行情况") = Some r1 /\
    Sample.record_of_title (u "2022年11月房地产市场运行情况") = Some r2 /\
    Sample.record_of_title (u "2023年1月房地产市场运行情况") = Some r3 /\
    x_labels (sort_months [r1; r2; r3]) = [u "202211"; u "20231"; u "20233"] /\
    x_labels (sort_months [r1; r2; r3]) <> [u "202211"; u "202301"; u "202303"].
Proof.
  do 3 eexists. split; [vm_compute; reflexivity |].
  split; [vm_compute; reflexivity |]. split; [vm_compute; reflexivity |].
  split; [vm_compute; reflexivity |]. vm_compute. discriminate.
Qed.

(** * Further properties *)

(** ** Completeness of the matcher *)

Lemma strip_prefix_complete (p t : str) : strip_prefix p (p ++ t) = Some t.
Proof.
  induction p as [| c p IH]; [reflexivity |].
  cbn. now rewrite N.eqb_refl.
Qed.

Lemma rep_rests_zero (cs : charset) (hi : option nat) (s : str) :
  In s (rep_rests cs 0 hi s).
Proof.
  destruct s as [| c s]; cbn [rep_rests]; [now left |].
  destruct hi as [[| h] |]; [now left | |];
    (destruct (mem cs c); [apply in_or_app; right |]; now left).
Qed.

Lemma rep_rests_complete (cs : charset) (w t : str) :
  forall lo hi,
    forallb (mem cs) w = true -> (lo <= List.length w)%nat ->
    match hi with Some h => (List.length w <= h)%nat | None => True end ->
    In t (rep_rests cs lo hi (w ++ t)).
Proof.
  induction w as [| c w IH]; intros lo hi Hall Hlo Hhi.
  - cbn in Hlo. assert (lo = 0%nat) as -> by lia. apply rep_rests_zero.
  - cbn [forallb] in Hall. apply andb_prop in Hall. destruct Hall as [Hc Hw].
    cbn [List.length] in Hlo, Hhi. cbn [app rep_rests].
    destruct hi as [[| h] |]; [lia | |]; rewrite Hc; apply in_or_app; left;
      apply IH; cbn; try assumption; lia.
Qed.

(** Every way the pattern denotes is among the ways the matcher lists. *)
Lemma run_complete (r : regex) :
  forall w gs t g, denotes r w gs -> In (t, gs ++ g) (run r (w ++ t) g).
Proof.
  induction r as [l | cs | cs lo hi | a IHa b IHb | a IHa b IHb | name a IHa];
    intros w gs t g H; cbn [denotes] in H; cbn [run].
  - destruct H as [-> ->]. rewrite strip_prefix_complete. now left.
  - destruct H as (c & -> & Hc & ->). cbn. rewrite Hc. now left.
  - destruct H as (Hall & Hlo & Hhi & ->). apply in_map_iff. exists t.
    split; [reflexivity | now apply rep_rests_complete].
  - destruct H as (w1 & w2 & g1 & g2 & -> & -> & Ha & Hb).
    apply in_flat_map. exists (w2 ++ t, g1 ++ g). split.
    + rewrite <- app_assoc. now apply IHa.
    + rewrite <- app_assoc. now apply IHb.
  - apply in_or_app. destruct H as [H | H]; [left; now apply IHa | right; now apply IHb].
  - destruct H as (g0 & -> & Ha). apply in_map_iff. exists (t, g0 ++ g).
    split; [now rewrite consumed_app | now apply IHa].
Qed.

Lemma match_complete (r : regex) (w t : str) (gs : Match) :
  denotes r w gs -> match_ r (w ++ t) <> None.
Proof.
  intros H. apply (run_complete r w gs t []) in H. unfold match_.
  destruct (run r (w ++ t) []) as [| [t0 g0] rest]; [contradiction | discriminate].
Qed.

Lemma search_complete (r : regex) (content : str) :
  occurs r content -> search r content <> None.
Proof.
  intros (pre & w & post & gs & -> & H).
  induction pre as [| c pre IH]; cbn [app].
  - pose proof (match_complete r w post gs H) as Hm.
    destruct (w ++ post); cbn [search]; destruct (match_ r _); congruence.
  - cbn [search]. destruct (match_ r (c :: pre ++ w ++ post)); [discriminate | exact IH].
Qed.

Lemma search_occurs (r : regex) (content : str) :
  search r content <> None <-> occurs r content.
Proof.
  split; [| apply search_complete].
  destruct (search r content) as [m |] eqn:E; [| congruence].
  intros _. apply search_sound in E. destruct E as (pre & w & t & -> & H).
  now exists pre, w, t, m.
Qed.

(** ** The outcome of filling a record *)

Lemma BaseInfo_init_None (name : string) : BaseInfo_init None name = Raise ValueError.
Proof. reflexivity. Qed.

Lemma listed_commercial_total (content : str) (m : Match) :
  search commercial_list_pattern content = Some m ->
  exists b, BaseInfo_init (Some m) "area" = Ok b.
Proof.
  intros H. apply listed_commercial_fields in H.
  destruct H as (? & ? & ? & ? & ? & ? & ? & ? & b & ? & ? & ? & H).
  exists b. tauto.
Qed.

Lemma listed_residential_total (content : str) (m : Match) :
  search residential_list_pattern content = Some m ->
  exists b, BaseInfo_init (Some m) "area" = Ok b.
Proof.
  intros H. apply listed_residential_fields in H.
  destruct H as (? & ? & ? & ? & ? & ? & ? & ? & b & ? & ? & ? & H).
  exists b. tauto.
Qed.

(** X1. [fill_from_content] returns a record exactly when some part of the
    content has the shape of each of the four patterns it searches: the two
    listed-area patterns and the commercial-prefixed new and resale
    transaction patterns.  In every other case it raises [ValueError], and
    it raises nothing else. *)
Theorem fill_from_content_outcome (t : TradeInfo) (content : str) :
  ((exists r, fill_from_content t content = Ok r) <->
   occurs commercial_list_pattern content /\ occurs residential_list_pattern content /\
   occurs new_commercial_deal_pattern content /\
   occurs old_commercial_deal_pattern content) /\
  (forall e, fill_from_content t content = Raise e -> e = ValueError).
Proof.
  split; [split |].
  - intros [r Hr]. apply fill_from_content_parts in Hr.
    destruct Hr as (cl & rl & nh & oh & _ & Hcl & Hrl & Hnh & Hoh).
    apply HouseInfo_init_parts in Hnh, Hoh.
    destruct Hnh as (Hn & _). destruct Hoh as (Ho & _).
    destruct (BaseInfo_init_matched _ _ _ Hcl) as [mc Ec].
    destruct (BaseInfo_init_matched _ _ _ Hrl) as [mr Er].
    destruct (BaseInfo_init_matched _ _ _ Hn) as [mn En].
    destruct (BaseInfo_init_matched _ _ _ Ho) as [mo Eo].
    split; [apply search_occurs; rewrite Ec; discriminate |].
    split; [apply search_occurs; rewrite Er; discriminate |].
    split; [apply search_occurs; rewrite En; discriminate |].
    apply search_occurs; rewrite Eo; discriminate.
  - intros (Hc & Hr & Hn & Ho). apply search_occurs in Hc, Hr, Hn, Ho.
    unfold fill_from_content.
    destruct (search commercial_list_pattern content) as [mc |] eqn:Ec; [| congruence].
    destruct (search residential_list_pattern content) as [mr |] eqn:Er; [| congruence].
    destruct (search new_commercial_deal_pattern content) as [mn |] eqn:En; [| congruence].
    destruct (search old_commercial_deal_pattern content) as [mo |] eqn:Eo; [| congruence].
    destruct (listed_commercial_total _ _ Ec) as [bc ->].
    destruct (listed_residential_total _ _ Er) as [br ->].
    destruct (HouseInfo_init_total _ _ _ En) as [nh ->].
    destruct (HouseInfo_init_total _ _ _ Eo) as [oh ->].
    cbn [rbind]. eauto.
  - intros e. unfold fill_from_content.
    destruct (search commercial_list_pattern content) as [mc |] eqn:Ec;
      [| cbn; congruence].
    destruct (listed_commercial_total _ _ Ec) as [bc ->]. cbn [rbind].
    destruct (search residential_list_pattern content) as [mr |] eqn:Er;
      [| cbn; congruence].
    destruct (listed_residential_total _ _ Er) as [br ->]. cbn [rbind].
    destruct (search new_commercial_deal_pattern content) as [mn |] eqn:En;
      [| cbn; congruence].
    destruct (HouseInfo_init_total _ _ _ En) as [nh ->]. cbn [rbind].
    destruct (search old_commercial_deal_pattern content) as [mo |] eqn:Eo;
      [| cbn; congruence].
    destruct (HouseInfo_init_total _ _ _ Eo) as [oh ->]. cbn [rbind]. discriminate.
Qed.

(** The sample content has the four shapes and is filled; the sentence of
    the new-commercial transaction alone is not, for want of the listed
    commercial area sentence. *)
Lemma fill_from_content_outcome_witness :
  (exists r, fill_from_content Sample.trade_info Sample.content = Ok r) /\
  fill_from_content Sample.trade_info Sample.new_commercial_sentence = Raise ValueError /\
  ~ occurs commercial_list_pattern Sample.new_commercial_sentence.
Proof.
  split; [| split].
  - apply (proj1 (fill_from_content_outcome Sample.trade_info Sample.content)).
    split_all; apply search_occurs; vm_compute; discriminate.
  - destruct (fill_from_content Sample.trade_info Sample.new_commercial_sentence)
      as [r | e] eqn:E; [vm_compute in E; discriminate E |].
    f_equal.
    exact (proj2 (fill_from_content_outcome Sample.trade_info
                    Sample.new_commercial_sentence) e E).
  - intros H. apply search_occurs in H. apply H. vm_compute. reflexivity.
Defined.

(** ** The triples of a transaction sentence *)

(** X2. Whenever a transaction pattern matches, the content holds the
    prefix, the area with its 同比 clause (token [t1], figure [f1]) and 环比
    clause ([t2], [f2]), then the unit count with its 同比 clause ([t3], [f3])
    and 环比 clause ([t4], [f4]); both triples are built, with values that are
    not negative.  The area triple has [yoy] from the 同比 clause and [mom]
    from the 环比 clause.  The unit triple has as [yoy] the 环比 figure signed
    by the 同比 token, and as [mom] the 同比 figure signed by the 环比 token. *)
Theorem deal_triples_of_clauses (prefix content : str) (m : Match)
  (Hsearch : search (build_deal_pattern prefix) content = Some m) :
  exists pre a t1 f1 t2 f2 sep n t3 f3 t4 f4 post,
    content = pre ++ (prefix ++ a ++ u "万平方米，" ++ u "同比" ++ t1 ++ f1 ++ u "%，"
                ++ u "环比" ++ t2 ++ f2 ++ u "%" ++ [sep]
                ++ u "成交套数" ++ n ++ u "套，" ++ u "同比" ++ t3 ++ f3 ++ u "%，"
                ++ u "环比" ++ t4 ++ f4 ++ u "%。") ++ post /\
    exists ba bu v1 v2 v3 v4,
      float f1 = Ok v1 /\ float f2 = Ok v2 /\ float f3 = Ok v3 /\ float f4 = Ok v4 /\
      BaseInfo_init (Some m) "area" = Ok ba /\ float a = Ok (value ba) /\
      (0 <= value ba)%Q /\ carries (yoy ba) t1 v1 /\ carries (mom ba) t2 v2 /\
      BaseInfo_init (Some m) "unit" = Ok bu /\ float n = Ok (value bu) /\
      (0 <= value bu)%Q /\ carries (yoy bu) t3 v4 /\ carries (mom bu) t4 v3.
Proof. exact (deal_fields prefix content m Hsearch). Qed.

Lemma deal_triples_of_clauses_witness :
  exists m pre a t1 f1 t2 f2 sep n t3 f3 t4 f4 post,
    search old_commercial_deal_pattern Sample.content = Some m /\
    Sample.content
    = pre ++ (u "我市二手房成交面积" ++ a ++ u "万平方米，" ++ u "同比" ++ t1 ++ f1 ++ u "%，"
                ++ u "环比" ++ t2 ++ f2 ++ u "%" ++ [sep]
                ++ u "成交套数" ++ n ++ u "套，" ++ u "同比" ++ t3 ++ f3 ++ u "%，"
                ++ u "环比" ++ t4 ++ f4 ++ u "%。") ++ post /\
    exists ba bu v1 v2 v3 v4,
      float f1 = Ok v1 /\ float f2 = Ok v2 /\ float f3 = Ok v3 /\ float f4 = Ok v4 /\
      BaseInfo_init (Some m) "area" = Ok ba /\ float a = Ok (value ba) /\
      (0 <= value ba)%Q /\ carries (yoy ba) t1 v1 /\ carries (mom ba) t2 v2 /\
      BaseInfo_init (Some m) "unit" = Ok bu /\ float n = Ok (value bu) /\
      (0 <= value bu)%Q /\ carries (yoy bu) t3 v4 /\ carries (mom bu) t4 v3.
Proof.
  destruct (search old_commercial_deal_pattern Sample.content) as [m |] eqn:E;
    [| vm_compute in E; discriminate E].
  destruct (deal_triples_of_clauses (u "我市二手房成交面积") Sample.content m E)
    as (pre & a & t1 & f1 & t2 & f2 & sep & n & t3 & f3 & t4 & f4 & post & H).
  exists m, pre, a, t1, f1, t2, f2, sep, n, t3, f3, t4, f4, post.
  split; [reflexivity | exact H].
Defined.

(** ** The trend tokens that count as a decrease *)

(** X3. A token the [trend] pattern captures has two characters, the first
    among 增, 下, 上 and the second among 长, 降, 涨.  It counts as a decrease
    exactly when its first character is 下 or its second is 降; the
    characters 负 and 低 of the sign test occur in no captured token. *)
Theorem trend_token_decrease (t : str) (Ht : denotes trend t []) :
  exists c d,
    t = [c; d] /\ In c (u "增下上") /\ In d (u "长降涨") /\
    (decrease t <-> [c] = u "下" \/ [d] = u "降") /\
    (forall x, In x t -> ~ In x (u "负低")).
Proof.
  apply denotes_trend in Ht. destruct Ht as (_ & c & d & -> & Hc & Hd).
  exists c, d. split; [reflexivity |]. split; [assumption |]. split; [assumption |].
  rewrite <- decrease_test.
  vm_compute in Hc, Hd.
  destruct Hc as [<- | [<- | [<- | []]]]; destruct Hd as [<- | [<- | [<- | []]]];
    (split;
     [ vm_compute; split;
       [ intros H; first [ discriminate H | left; reflexivity | right; reflexivity ]
       | intros [H | H]; first [ reflexivity | discriminate H ] ]
     | intros x Hx Hset; vm_compute in Hx, Hset;
       destruct Hx as [<- | [<- | []]];
       destruct Hset as [Hset | [Hset | []]]; discriminate Hset ]).
Qed.

Lemma trend_token_decrease_witness :
  exists c d,
    u "下降" = [c; d] /\ In c (u "增下上") /\ In d (u "长降涨") /\
    (decrease (u "下降") <-> [c] = u "下" \/ [d] = u "降") /\
    (forall x, In x (u "下降") -> ~ In x (u "负低")).
Proof.
  apply (trend_token_decrease (u "下降")).
  unfold trend. cbn [denotes mem].
  exists [19979%N], [38477%N], [], [].
  split; [reflexivity |]. split; [reflexivity |]. split.
  - exists 19979%N. split; [reflexivity |]. split; [vm_compute; reflexivity | reflexivity].
  - exists 38477%N. split; [reflexivity |]. split; [vm_compute; reflexivity | reflexivity].
Defined.

(** ** The cache across calls *)

(** X4. After a miss that fetched a non-empty page, the next call for the
    same file is a hit: it returns the stored bytes, the UTF-8 encoding of
    the page fetched before, leaves the state as it is and issues no
    request, whatever remote path it is given. *)
Theorem fetch_html_content_then_hit (http_text : str -> option str)
    (dump_file suffix suffix' : str) (st : State) (html : str) (b : byte) (bs : list byte)
  (Hmiss : files st !! dump_file = None \/ files st !! dump_file = Some [])
  (Hhttp : http_text (base_url ++ suffix) = Some html)
  (Henc : encode_utf8 html = Some (b :: bs)) :
  let st1 := snd (fetch_html_content http_text dump_file suffix st) in
  fst (fetch_html_content http_text dump_file suffix st) = Ok (Text html) /\
  requests st1 = requests st ++ [base_url ++ suffix] /\
  fetch_html_content http_text dump_file suffix' st1 = (Ok (Bytes (b :: bs)), st1).
Proof.
  rewrite (fetch_html_content_miss _ _ _ _ Hmiss), Hhttp, Henc. cbn.
  split; [reflexivity |]. split; [reflexivity |].
  apply fetch_html_content_hit. cbn. apply lookup_insert_eq.
Qed.

Lemma fetch_html_content_then_hit_witness :
  exists b bs,
    encode_utf8 Sample.index_html = Some (b :: bs) /\
    let st1 := snd Sample.run_fetch in
    fst Sample.run_fetch = Ok (Text Sample.index_html) /\
    requests st1 = [base_url ++ u "index.html"] /\
    fetch_html_content Sample.http_text (u "index.html") (u "elsewhere.html") st1
      = (Ok (Bytes (b :: bs)), st1).
Proof.
  destruct (encode_utf8 Sample.index_html) as [[| b bs] |] eqn:E;
    [vm_compute in E; discriminate E | | vm_compute in E; discriminate E].
  exists b, bs. split; [reflexivity |].
  apply (fetch_html_content_then_hit Sample.http_text (u "index.html") (u "index.html")
           (u "elsewhere.html") Sample.initial Sample.index_html b bs).
  - left. apply lookup_empty.
  - vm_compute. reflexivity.
  - exact E.
Defined.

(** X5. An empty response is written as an empty file, which the cache
    test takes for a miss: the next call for the same file sends a request
    again. *)
Theorem fetch_html_content_empty_not_cached (http_text : str -> option str)
    (dump_file suffix suffix' : str) (st : State)
  (Hmiss : files st !! dump_file = None \/ files st !! dump_file = Some [])
  (Hhttp : http_text (base_url ++ suffix) = Some []) :
  let st1 := snd (fetch_html_content http_text dump_file suffix st) in
  fst (fetch_html_content http_text dump_file suffix st) = Ok (Text []) /\
  files st1 !! dump_file = Some [] /\
  requests (snd (fetch_html_content http_text dump_file suffix' st1))
  = requests st ++ [base_url ++ suffix; base_url ++ suffix'].
Proof.
  rewrite (fetch_html_content_miss _ _ _ _ Hmiss), Hhttp. cbn.
  split; [reflexivity |]. split; [apply lookup_insert_eq |].
  rewrite fetch_html_content_miss by (right; cbn; apply lookup_insert_eq). cbn.
  rewrite <- app_assoc.
  destruct (http_text (base_url ++ suffix')); [destruct (encode_utf8 _) |]; reflexivity.
Qed.

Lemma fetch_html_content_empty_not_cached_witness :
  let st1 := snd (fetch_html_content Sample.http_text (u "index_2.html")
                    (u "index_2.html") Sample.initial) in
  fst (fetch_html_content Sample.http_text (u "index_2.html") (u "index_2.html")
         Sample.initial) = Ok (Text []) /\
  files st1 !! u "index_2.html" = Some [] /\
  requests (snd (fetch_html_content Sample.http_text (u "index_2.html")
                   (u "index_2.html") st1))
  = [] ++ [base_url ++ u "index_2.html"; base_url ++ u "index_2.html"].
Proof.
  apply (fetch_html_content_empty_not_cached Sample.http_text (u "index_2.html")
           (u "index_2.html") (u "index_2.html") Sample.initial).
  - left. apply lookup_empty.
  - vm_compute. reflexivity.
Defined.

(** ** The state only moves forward *)

Lemma grows_refl (st : State) : grows st st.
Proof.
  unfold grows. split_all; auto; exists []; now rewrite app_nil_r.
Qed.

Lemma grows_trans (st1 st2 st3 : State) : grows st1 st2 -> grows st2 st3 -> grows st1 st3.
Proof.
  intros (F1 & E1 & [l1 R1] & [m1 L1]) (F2 & E2 & [l2 R2] & [m2 L2]).
  unfold grows. split_all; auto.
  - exists (l1 ++ l2). now rewrite R2, R1, app_assoc.
  - exists (m1 ++ m2). now rewrite L2, L1, app_assoc.
Qed.

Lemma monotone_ret {A} (a : A) : monotone (ret a).
Proof. intros st. apply grows_refl. Qed.

Lemma monotone_raise {A} (e : exn) : monotone (@raise A e).
Proof. intros st. apply grows_refl. Qed.

Lemma monotone_lift {A} (r : result A) : monotone (lift r).
Proof. intros st. apply grows_refl. Qed.

Lemma monotone_bind {A B} (c : M A) (k : A -> M B) :
  monotone c -> (forall a, monotone (k a)) -> monotone (bind c k).
Proof.
  intros Hc Hk st. unfold bind. specialize (Hc st).
  destruct (c st) as [[a | e] st1]; cbn in Hc; [| exact Hc].
  eapply grows_trans; [exact Hc | apply Hk].
Qed.

Lemma monotone_try_except {A} (body handler : M A) :
  monotone body -> monotone handler -> monotone (try_except body handler).
Proof.
  intros Hb Hh st. unfold try_except. specialize (Hb st).
  destruct (body st) as [[a | e] st1]; cbn in Hb; [exact Hb |].
  eapply grows_trans; [exact Hb | apply Hh].
Qed.

Lemma monotone_for_each {A} (l : list A) (body : A -> M unit) :
  (forall a, monotone (body a)) -> monotone (for_each l body).
Proof.
  intros Hb. induction l as [| a l IH]; cbn [for_each]; [apply monotone_ret |].
  apply monotone_bind; [apply Hb | intros _; exact IH].
Qed.

Lemma monotone_append_month (t : TradeInfo) : monotone (append_month t).
Proof.
  intros st. unfold grows. cbn. split_all; auto.
  - exists []. now rewrite app_nil_r.
  - now exists [t].
Qed.

Lemma monotone_fetch_html_content (http_text : str -> option str) (dump_file suffix : str) :
  monotone (fetch_html_content http_text dump_file suffix).
Proof.
  intros st. destruct (files st !! dump_file) as [[| b bs] |] eqn:E.
  2: { rewrite (fetch_html_content_hit _ _ _ _ b bs E). apply grows_refl. }
  all: rewrite fetch_html_content_miss by auto;
    assert (Hfile : forall f b0 bs0 v, files st !! f = Some (b0 :: bs0) ->
              <[dump_file := v]> (files st) !! f = Some (b0 :: bs0))
      by (intros f b0 bs0 v Hf; rewrite lookup_insert_ne; [exact Hf | congruence]);
    assert (Hsome : forall f v, is_Some (files st !! f) ->
              is_Some (<[dump_file := v]> (files st) !! f))
      by (intros f v Hf; destruct (decide (dump_file = f)) as [-> | Hne];
          [rewrite lookup_insert_eq; eauto | now rewrite lookup_insert_ne]);
    cbn; destruct (http_text _) as [html |]; [destruct (encode_utf8 html) |];
    unfold grows; cbn; split_all; eauto; exists []; now rewrite app_nil_r.
Qed.

Lemma monotone_fill_month_trade_info (http_text : str -> option str)
    (soup_para_text : html_content -> option str) (script_dir : str)
    (t : TradeInfo) (dump_file : option str) :
  monotone (fill_month_trade_info http_text soup_para_text script_dir t dump_file).
Proof.
  unfold fill_month_trade_info. apply monotone_bind.
  - apply monotone_fetch_html_content.
  - intros html. destruct (soup_para_text html);
      [apply monotone_lift | apply monotone_raise].
Qed.

Lemma monotone_process_month_tag (http_text : str -> option str)
    (soup_para_text : html_content -> option str) (script_dir : str) (tag : Tag) :
  monotone (process_month_tag http_text soup_para_text script_dir tag).
Proof.
  unfold process_month_tag. apply monotone_bind; [apply monotone_lift |].
  intros [t ti]. apply monotone_try_except; [| apply monotone_ret].
  apply monotone_bind; [apply monotone_fill_month_trade_info |].
  intros filled. apply monotone_append_month.
Qed.

Lemma monotone_process_index_page (http_text : str -> option str)
    (soup_anchors : html_content -> list Tag)
    (soup_para_text : html_content -> option str) (script_dir page_id : str) :
  monotone (process_index_page http_text soup_anchors soup_para_text script_dir page_id).
Proof.
  unfold process_index_page. apply monotone_bind; [apply monotone_fetch_html_content |].
  intros html. apply monotone_for_each. intros tag. apply monotone_process_month_tag.
Qed.

(** X6. Whatever the site answers and wherever the run stops, the state
    after [fetch_business_data] comes after the state before it: a cache
    file that was not empty keeps its bytes, no file is removed, and the
    request log and [month_info_list] keep what they had and are only
    extended at the end. *)
Theorem fetch_business_data_grows (http_text : str -> option str)
    (soup_anchors : html_content -> list Tag)
    (soup_para_text : html_content -> option str) (script_dir : str) (st : State) :
  grows st (snd (fetch_business_data http_text soup_anchors soup_para_text script_dir st)).
Proof.
  unfold fetch_business_data. apply monotone_for_each. intros page_id.
  apply monotone_process_index_page.
Qed.

(** ** What the loop body lets through *)

Lemma is_month_tag_title (tag : Tag) :
  is_month_tag tag = true -> exists ti, title tag = Some ti.
Proof.
  unfold is_month_tag. destruct (target tag); [| discriminate].
  destruct (title tag) as [ti |]; [eauto | discriminate].
Qed.

Lemma title_groups (ti : str) (m : Match) :
  match_ title_pattern ti = Some m ->
  exists y mo, group m "1" = Ok y /\ group m "2" = Ok mo.
Proof.
  intros H. apply match_sound in H. destruct H as (w & t & _ & Hd).
  apply title_shape in Hd. destruct Hd as (y & mo & rest & _ & -> & _).
  exists y, mo. split; reflexivity.
Qed.

Lemma read_month_tag_cases (tag : Tag) (ti : str) :
  title tag = Some ti ->
  match match_ title_pattern ti, href_attr tag with
  | Some _, Some _ => exists t, read_month_tag tag = Ok (t, ti)
  | _, _ => read_month_tag tag = Raise AttributeError
  end.
Proof.
  intros Ht. unfold read_month_tag. rewrite Ht.
  destruct (match_ title_pattern ti) as [m |] eqn:E; [| reflexivity].
  destruct (title_groups ti m E) as (y & mo & -> & ->). cbn [rbind].
  destruct (href_attr tag) as [h |]; cbn; [eauto | reflexivity].
Qed.

(** X7. For an anchor that passed the filter of [find_all], the head of the
    loop body gives a record exactly when the title matches the pattern
    from its start and the anchor has an [href]; in every other case it
    raises [AttributeError], and nothing else. *)
Theorem read_month_tag_outcome (tag : Tag) (Hfilter : is_month_tag tag = true) :
  ((exists t ti, read_month_tag tag = Ok (t, ti)) <->
   (exists ti m h, title tag = Some ti /\ match_ title_pattern ti = Some m /\
                   href_attr tag = Some h)) /\
  (forall e, read_month_tag tag = Raise e -> e = AttributeError).
Proof.
  destruct (is_month_tag_title tag Hfilter) as [ti Hti].
  pose proof (read_month_tag_cases tag ti Hti) as Hc.
  destruct (match_ title_pattern ti) as [m |] eqn:Em;
    [destruct (href_attr tag) as [h |] eqn:Eh |].
  - destruct Hc as [t Ht]. split; [| intros e He; congruence].
    split; [intros _; exists ti, m, h; auto | intros _; eauto].
  - split; [| intros e He; congruence].
    split; [intros (t & ti' & Ht); congruence |].
    intros (ti' & m' & h' & _ & _ & Hh). discriminate Hh.
  - split; [| intros e He; congruence].
    split; [intros (t & ti' & Ht); congruence |].
    intros (ti' & m' & h' & Ht' & Hm' & _). congruence.
Qed.

Lemma read_month_tag_outcome_witness :
  (exists t ti, read_month_tag Sample.month_tag = Ok (t, ti)) /\
  read_month_tag Sample.late_title_tag = Raise AttributeError.
Proof.
  split.
  - apply (proj1 (read_month_tag_outcome Sample.month_tag eq_refl)).
    eexists _, _, _. split; [reflexivity |]. split; [vm_compute |]; reflexivity.
  - destruct (read_month_tag Sample.late_title_tag) as [r | e] eqn:E;
      [vm_compute in E; discriminate E |].
    f_equal. exact (proj2 (read_month_tag_outcome Sample.late_title_tag eq_refl) e E).
Defined.

Lemma fill_month_trade_info_list (http_text : str -> option str)
    (soup_para_text : html_content -> option str) (script_dir : str)
    (t : TradeInfo) (dump_file : option str) (st : State) :
  month_info_list
    (snd (fill_month_trade_info http_text soup_para_text script_dir t dump_file st))
  = month_info_list st.
Proof.
  unfold fill_month_trade_info, bind.
  match goal with
  | |- context [fetch_html_content ?h ?d ?x st] =>
    pose proof (fetch_html_content_list h d x st) as Hl;
    destruct (fetch_html_content h d x st) as [[html | e] st0]
  end; cbn in Hl; [| exact Hl].
  destruct (soup_para_text html); exact Hl.
Qed.

Lemma process_month_tag_body (http_text : str -> option str)
    (soup_para_text : html_content -> option str) (script_dir : str)
    (tag : Tag) (t : TradeInfo) (ti : str) (st : State) :
  read_month_tag tag = Ok (t, ti) ->
  process_month_tag http_text soup_para_text script_dir tag st =
  match fill_month_trade_info http_text soup_para_text script_dir t
          (Some (ti ++ u ".html")) st with
  | (Ok filled, st1) =>
    (Ok tt, {| files := files st1; requests := requests st1;
               month_info_list := month_info_list st1 ++ [filled] |})
  | (Raise _, st1) => (Ok tt, st1)
  end.
Proof.
  intros Hread. unfold process_month_tag, bind, lift, try_except. rewrite Hread.
  unfold bind.
  destruct (fill_month_trade_info _ _ _ t _ st) as [[filled | e] st1]; reflexivity.
Qed.

(** X8. Once the record of an anchor has been read, the loop body never
    raises: any exception of [fill_month_trade_info], a failed request and
    an unencodable page as much as a bulletin that does not parse, ends in
    a normal return with [month_info_list] as it was. *)
Theorem process_month_tag_swallows (http_text : str -> option str)
    (soup_para_text : html_content -> option str) (script_dir : str)
    (tag : Tag) (t : TradeInfo) (ti : str) (st : State)
  (Hread : read_month_tag tag = Ok (t, ti)) :
  fst (process_month_tag http_text soup_para_text script_dir tag st) = Ok tt /\
  (forall e st1,
     fill_month_trade_info http_text soup_para_text script_dir t
       (Some (ti ++ u ".html")) st = (Raise e, st1) ->
     process_month_tag http_text soup_para_text script_dir tag st = (Ok tt, st1) /\
     month_info_list st1 = month_info_list st).
Proof.
  rewrite (process_month_tag_body _ _ _ _ _ _ _ Hread). split.
  - destruct (fill_month_trade_info _ _ _ t _ st) as [[filled | e] st1]; reflexivity.
  - intros e st1 Hfill.
    pose proof (fill_month_trade_info_list http_text soup_para_text script_dir t
                  (Some (ti ++ u ".html")) st) as Hl.
    rewrite Hfill in *. cbn in Hl. auto.
Qed.

(** On a site that answers no request, the bulletin of the sample anchor
    cannot be fetched; the loop body returns normally and adds nothing. *)
Lemma process_month_tag_swallows_witness :
  fst (process_month_tag (fun _ => None) Sample.soup_para_text (u ".")
         Sample.month_tag Sample.initial) = Ok tt /\
  exists st1,
    fill_month_trade_info (fun _ => None) Sample.soup_para_text (u ".") Sample.trade_info
      (Some (Sample.month_title ++ u ".html")) Sample.initial = (Raise ClientError, st1) /\
    process_month_tag (fun _ => None) Sample.soup_para_text (u ".")
      Sample.month_tag Sample.initial = (Ok tt, st1) /\
    month_info_list st1 = [].
Proof.
  assert (Hread : read_month_tag Sample.month_tag
                  = Ok (Sample.trade_info, Sample.month_title))
    by (vm_compute; reflexivity).
  destruct (process_month_tag_swallows (fun _ => None) Sample.soup_para_text (u ".")
              Sample.month_tag Sample.trade_info Sample.month_title Sample.initial Hread)
    as [Hok Hraise].
  split; [exact Hok |].
  destruct (fill_month_trade_info (fun _ => None) Sample.soup_para_text (u ".")
              Sample.trade_info (Some (Sample.month_title ++ u ".html")) Sample.initial)
    as [[filled | e] st1] eqn:E.
  - apply (f_equal fst) in E. vm_compute in E. discriminate E.
  - assert (He : e = ClientError)
      by (apply (f_equal fst) in E; vm_compute in E; congruence).
    subst e. exists st1. split; [reflexivity |]. exact (Hraise ClientError st1 eq_refl).
Defined.

(** ** The exceptions that end the run *)







(** ** Where a bulletin is fetched from and kept *)



(** ** The sort of the result list *)

Lemma str_leb_refl (a : str) : str_leb a a = true.
Proof.
  induction a as [| c a IH]; [reflexivity |]. cbn. now rewrite N.ltb_irrefl.
Qed.

Lemma str_leb_total (a : str) : forall b, str_leb a b = false -> str_leb b a = true.
Proof.
  induction a as [| c a IH]; intros [| d b]; cbn; try congruence.
  destruct (N.ltb_spec c d); [discriminate |].
  destruct (N.ltb_spec d c); [reflexivity |]. apply IH.
Qed.

Lemma str_leb_antisym (a : str) :
  forall b, str_leb a b = true -> str_leb b a = true -> a = b.
Proof.
  induction a as [| c a IH]; intros [| d b]; cbn; try congruence.
  destruct (N.ltb_spec c d); destruct (N.ltb_spec d c); try discriminate; try lia.
  intros H1 H2. assert (c = d) by lia. subst. f_equal. now apply IH.
Qed.

Lemma str_leb_trans (a : str) :
  forall b c, str_leb a b = true -> str_leb b c = true -> str_leb a c = true.
Proof.
  induction a as [| x a IH]; intros [| y b] [| z c]; cbn; try congruence.
  destruct (N.ltb_spec x y); destruct (N.ltb_spec y x); try discriminate;
    destruct (N.ltb_spec y z); destruct (N.ltb_spec z y); try discriminate;
    destruct (N.ltb_spec x z); destruct (N.ltb_spec z x); try reflexivity; try lia.
  apply IH.
Qed.

Lemma key_leb_refl (a : TradeInfo) : key_leb a a = true.
Proof.
  unfold key_leb, str_eqb. rewrite bool_decide_eq_true_2 by reflexivity.
  apply str_leb_refl.
Qed.

Lemma key_leb_total (a b : TradeInfo) : key_leb a b = false -> key_leb b a = true.
Proof.
  unfold key_leb, str_eqb.
  destruct (bool_decide_reflect (year a = year b)) as [E | E].
  - rewrite bool_decide_eq_true_2 by congruence. apply str_leb_total.
  - rewrite bool_decide_eq_false_2 by congruence. apply str_leb_total.
Qed.

Lemma key_leb_trans (a b c : TradeInfo) :
  key_leb a b = true -> key_leb b c = true -> key_leb a c = true.
Proof.
  unfold key_leb, str_eqb.
  destruct (bool_decide_reflect (year a = year b)) as [Eab | Eab];
    destruct (bool_decide_reflect (year b = year c)) as [Ebc | Ebc];
    destruct (bool_decide_reflect (year a = year c)) as [Eac | Eac];
    try congruence; intros H1 H2.
  - eapply str_leb_trans; eassumption.
  - exfalso. apply Eab. apply str_leb_antisym; [exact H1 | now rewrite Eac].
  - eapply str_leb_trans; eassumption.
Qed.

Lemma key_leb_same_key (a b : TradeInfo) : month_key a = month_key b -> key_leb a b = true.
Proof.
  unfold month_key, key_leb, str_eqb. intros H. injection H as Hy Hm.
  rewrite bool_decide_eq_true_2 by exact Hy. rewrite Hm. apply str_leb_refl.
Qed.

Lemma insert_sorted_perm (x : TradeInfo) (l : list TradeInfo) :
  Permutation (insert_sorted x l) (x :: l).
Proof.
  induction l as [| y l IH]; cbn; [reflexivity |].
  destruct (key_leb x y); [reflexivity |].
  rewrite IH. apply perm_swap.
Qed.

Lemma insert_sorted_sorted (x : TradeInfo) (l : list TradeInfo) :
  StronglySorted (fun a b => key_leb a b = true) l ->
  StronglySorted (fun a b => key_leb a b = true) (insert_sorted x l).
Proof.
  induction l as [| y l IH]; intros Hs; cbn.
  - constructor; constructor.
  - inversion Hs as [| y' l' Hl Hy]; subst.
    destruct (key_leb x y) eqn:E.
    + constructor; [exact Hs |]. constructor; [exact E |].
      eapply List.Forall_impl; [| exact Hy]. intros z Hz. eapply key_leb_trans; eassumption.
    + constructor; [now apply IH |].
      apply key_leb_total in E.
      rewrite (List.Forall_forall (fun b => key_leb y b = true)). intros z Hz.
      apply (Permutation_in _ (insert_sorted_perm x l)) in Hz.
      destruct Hz as [<- | Hz]; [exact E |].
      rewrite List.Forall_forall in Hy. now apply Hy.
Qed.

Lemma insert_sorted_filter (k : str * str) (x : TradeInfo) (l : list TradeInfo) :
  List.filter (fun t => bool_decide (month_key t = k)) (insert_sorted x l)
  = List.filter (fun t => bool_decide (month_key t = k)) (x :: l).
Proof.
  induction l as [| y l IH]; [reflexivity |].
  cbn [insert_sorted]. destruct (key_leb x y) eqn:E; [reflexivity |].
  cbn [List.filter] in *. rewrite IH.
  destruct (bool_decide_reflect (month_key x = k)) as [Ex | Ex]; [| reflexivity].
  destruct (bool_decide_reflect (month_key y = k)) as [Ey | Ey]; [| reflexivity].
  rewrite key_leb_same_key in E by congruence. discriminate E.
Qed.

(** X11. The sort of [month_info_list] keeps the records, only reordered;
    puts them in order of their [(year, month)] keys, compared as texts;
    and keeps the records of one key in the order in which they were
    appended. *)
Theorem sort_months_sorted_stable (l : list TradeInfo) :
  Permutation (sort_months l) l /\
  StronglySorted (fun a b => key_leb a b = true) (sort_months l) /\
  (forall k, List.filter (fun t => bool_decide (month_key t = k)) (sort_months l)
             = List.filter (fun t => bool_decide (month_key t = k)) l).
Proof.
  induction l as [| x l (IHp & IHs & IHf)]; cbn [sort_months].
  - split; [reflexivity |]. split; [constructor | reflexivity].
  - split; [| split].
    + rewrite insert_sorted_perm. now constructor.
    + now apply insert_sorted_sorted.
    + intros k. rewrite insert_sorted_filter. cbn [List.filter]. now rewrite IHf.
Qed.

(** X12. The keys are compared as texts, so within one year a month written
    with the two digits 1x (October to December) comes before a month
    written with one digit above 1 (February to September), whatever the
    order in which the two were appended. *)
Theorem sort_months_two_digit_month_first (a b : TradeInfo) (c d : N)
  (Hyear : year a = year b)
  (Ha : month a = [49%N; c])
  (Hb : month b = [d])
  (Hd : (49 < d)%N) :
  sort_months [b; a] = [a; b] /\ sort_months [a; b] = [a; b].
Proof.
  assert (Hab : key_leb a b = true).
  { unfold key_leb, str_eqb. rewrite bool_decide_eq_true_2 by assumption.
    rewrite Ha, Hb. cbn. destruct (N.ltb_spec 49 d); [reflexivity | lia]. }
  assert (Hba : key_leb b a = false).
  { unfold key_leb, str_eqb. rewrite bool_decide_eq_true_2 by congruence.
    rewrite Ha, Hb. cbn. destruct (N.ltb_spec d 49); [lia |].
    destruct (N.ltb_spec 49 d); [reflexivity | lia]. }
  cbn. now rewrite Hab, Hba.
Qed.

(** The records of 2023年9月 and 2023年10月: October is put first. *)
Lemma sort_months_two_digit_month_first_witness :
  exists sep oct,
    Sample.record_of_title (u "2023年9月房地产市场运行情况") = Some sep /\
    Sample.record_of_title (u "2023年10月房地产市场运行情况") = Some oct /\
    sort_months [sep; oct] = [oct; sep] /\ sort_months [oct; sep] = [oct; sep] /\
    x_labels (sort_months [sep; oct]) = [u "202310"; u "20239"].
Proof.
  destruct (Sample.record_of_title (u "2023年9月房地产市场运行情况")) as [sep |] eqn:E1;
    [| vm_compute in E1; discriminate E1].
  destruct (Sample.record_of_title (u "2023年10月房地产市场运行情况")) as [oct |] eqn:E2;
    [| vm_compute in E2; discriminate E2].
  exists sep, oct. split; [reflexivity |]. split; [reflexivity |].
  vm_compute in E1, E2. inversion E1; inversion E2; subst.
  destruct (sort_months_two_digit_month_first
              {| year := u "2023"; month := u "10"; href := u "t.html";
                 commercial_list_info := None; residential_list_info := None;
                 new_house := None; old_house := None |}
              {| year := u "2023"; month := u "9"; href := u "t.html";
                 commercial_list_info := None; residential_list_info := None;
                 new_house := None; old_house := None |}
              48%N 57%N eq_refl eq_refl eq_refl eq_refl) as [H1 H2].
  split; [exact H1 |]. split; [exact H2 |]. vm_compute. reflexivity.
Defined.

(** ** The average area per unit *)

Lemma filled_houses (r : TradeInfo) :
  is_filled r ->
  exists nh oh,
    new_house r = Some nh /\ old_house r = Some oh /\
    residential_area nh = commercial_area nh /\ residential_unit nh = commercial_unit nh /\
    residential_area oh = commercial_area oh /\ residential_unit oh = commercial_unit oh.
Proof.
  intros (t & content & H). apply fill_from_content_parts in H.
  destruct H as (cl & rl & nh & oh & -> & _ & _ & Hnh & Hoh).
  apply HouseInfo_init_parts in Hnh, Hoh.
  destruct Hnh as (Hn1 & Hn2 & Hn3 & Hn4). destruct Hoh as (Ho1 & Ho2 & Ho3 & Ho4).
  exists nh, oh. cbn. split_all; try reflexivity; congruence.
Qed.

Lemma true_div_cases (a b : Q) :
  ((b == 0)%Q /\ true_div a b = inl ZeroDivisionError) \/
  (~ (b == 0)%Q /\ true_div a b = inr (a / b)%Q).
Proof.
  unfold true_div. destruct (Qeq_bool b 0) eqn:E.
  - left. split; [now apply Qeq_bool_eq | reflexivity].
  - right. split; [| reflexivity]. intros H. apply Qeq_eq_bool in H. congruence.
Qed.

(** X13. On the records the run collects, the series of the new-house
    average area is the quotient of the commercial area by the commercial
    unit count of each record, in order; and it ends in
    [ZeroDivisionError], and in no other exception, exactly when some
    record has a unit count of zero. *)
Theorem new_house_avg_area_series_outcome (l : list TradeInfo)
  (Hfilled : Forall is_filled l) :
  match new_house_avg_area_series l with
  | inr qs =>
    Forall (fun r => ~ no_new_units r) l /\
    Forall2 (fun r q => exists nh, new_house r = Some nh /\
                          q = (value (commercial_area nh) / value (commercial_unit nh))%Q)
            l qs
  | inl e => e = ZeroDivisionError /\ Exists no_new_units l
  end.
Proof.
  unfold new_house_avg_area_series.
  induction Hfilled as [| r l Hr Hl IH]; cbn [comprehension].
  - split; constructor.
  - destruct (filled_houses r Hr) as (nh & oh & Hnh & _ & Ha & Hu & _).
    rewrite Hnh. cbn [avg_area_per_house]. rewrite Ha, Hu.
    destruct (true_div_cases (value (commercial_area nh)) (value (commercial_unit nh)))
      as [[Hz ->] | [Hnz ->]].
    + split; [reflexivity |]. left. exists nh. auto.
    + destruct (comprehension _ l) as [e | qs].
      * destruct IH as [-> Hex]. split; [reflexivity | now right].
      * destruct IH as [Hall Hq]. split.
        -- constructor; [| exact Hall]. intros (nh' & Hnh' & Hz'). congruence.
        -- constructor; [| exact Hq]. exists nh. auto.
Qed.

(** A bulletin that reports no unit sold is filled like any other, and the
    series over it ends in [ZeroDivisionError]. *)
Lemma new_house_avg_area_series_outcome_witness :
  exists r,
    fill_from_content Sample.trade_info Sample.content_no_units = Ok r /\
    new_house_avg_area_series [r] = inl ZeroDivisionError /\
    Exists no_new_units [r].
Proof.
  destruct (fill_from_content Sample.trade_info Sample.content_no_units) as [r | e] eqn:E;
    [| vm_compute in E; discriminate E].
  exists r. split; [reflexivity |].
  assert (Hf : Forall is_filled [r]).
  { constructor; [| constructor]. now exists Sample.trade_info, Sample.content_no_units. }
  pose proof (new_house_avg_area_series_outcome [r] Hf) as H.
  assert (Hs : new_house_avg_area_series [r] = inl ZeroDivisionError).
  { vm_compute in E. inversion E. vm_compute. reflexivity. }
  rewrite Hs in H. destruct H as [_ Hex]. split; [exact Hs | exact Hex].
Defined.

(** ** The bytes in the cache *)

Lemma byte_of_to_N (n : N) : (n < 256)%N -> Byte.to_N (byte_of n) = n.
Proof.
  intros H. unfold byte_of. destruct (Byte.of_N n) as [b |] eqn:E.
  - now apply Byte.to_of_N.
  - apply Byte.of_N_None_iff in E. lia.
Qed.

Lemma split64 (c : N) :
  exists q r, (c = 64 * q + r /\ r < 64 /\ c / 64 = q /\ c mod 64 = r)%N.
Proof.
  exists (c / 64)%N, (c mod 64)%N. split; [apply N.div_mod' |].
  split; [apply N.mod_lt; discriminate | split; reflexivity].
Qed.

Lemma div4096 (c : N) : (c / 4096 = c / 64 / 64)%N.
Proof. now rewrite N.Div0.div_div. Qed.

Lemma div262144 (c : N) : (c / 262144 = c / 64 / 64 / 64)%N.
Proof. now rewrite !N.Div0.div_div. Qed.

Lemma utf8_decode_1 (b0 : N) (rest : list N) :
  (b0 < 128)%N -> utf8_decode (b0 :: rest) = b0 :: utf8_decode rest.
Proof. intros H. cbn [utf8_decode]. destruct (N.ltb_spec b0 128); [reflexivity | lia]. Qed.

Lemma utf8_decode_2 (b0 b1 : N) (rest : list N) :
  (128 <= b0 < 224)%N ->
  utf8_decode (b0 :: b1 :: rest) = ((b0 - 192) * 64 + (b1 - 128))%N :: utf8_decode rest.
Proof.
  intros H. cbn [utf8_decode]. destruct (N.ltb_spec b0 128); [lia |].
  destruct (N.ltb_spec b0 224); [reflexivity | lia].
Qed.

Lemma utf8_decode_3 (b0 b1 b2 : N) (rest : list N) :
  (224 <= b0 < 240)%N ->
  utf8_decode (b0 :: b1 :: b2 :: rest)
  = ((b0 - 224) * 4096 + (b1 - 128) * 64 + (b2 - 128))%N :: utf8_decode rest.
Proof.
  intros H. cbn [utf8_decode]. destruct (N.ltb_spec b0 128); [lia |].
  destruct (N.ltb_spec b0 224); [lia |]. destruct (N.ltb_spec b0 240); [reflexivity | lia].
Qed.

Lemma utf8_decode_4 (b0 b1 b2 b3 : N) (rest : list N) :
  (240 <= b0)%N ->
  utf8_decode (b0 :: b1 :: b2 :: b3 :: rest)
  = ((b0 - 240) * 262144 + (b1 - 128) * 4096 + (b2 - 128) * 64 + (b3 - 128))%N
      :: utf8_decode rest.
Proof.
  intros H. cbn [utf8_decode]. destruct (N.ltb_spec b0 128); [lia |].
  destruct (N.ltb_spec b0 224); [lia |]. destruct (N.ltb_spec b0 240); [lia | reflexivity].
Qed.

Lemma encode_char_decode (c : N) (bs : list byte) (rest : list N) :
  encode_char c = Some bs ->
  utf8_decode (map Byte.to_N bs ++ rest) = c :: utf8_decode rest.
Proof.
  unfold encode_char.
  destruct (N.ltb_spec c 128) as [H1 | H1].
  { intros H. inversion H. cbn [map app]. rewrite byte_of_to_N by lia.
    now apply utf8_decode_1. }
  destruct (N.ltb_spec c 2048) as [H2 | H2].
  { intros H. inversion H. cbn [map app].
    destruct (split64 c) as (q0 & r0 & E0 & B0 & Eq0 & Er0). rewrite Eq0, Er0.
    rewrite !byte_of_to_N by lia. rewrite utf8_decode_2 by lia. f_equal. lia. }
  destruct ((55296 <=? c)%N && (c <=? 57343)%N); [discriminate |].
  destruct (N.ltb_spec c 65536) as [H3 | H3].
  { intros H. inversion H. cbn [map app]. rewrite div4096.
    destruct (split64 c) as (q0 & r0 & E0 & B0 & Eq0 & Er0). rewrite Eq0, Er0.
    destruct (split64 q0) as (q1 & r1 & E1 & B1 & Eq1 & Er1). rewrite Eq1, Er1.
    rewrite !byte_of_to_N by lia. rewrite utf8_decode_3 by lia. f_equal. lia. }
  destruct (N.ltb_spec c 1114112) as [H4 | H4]; [| discriminate].
  intros H. inversion H. cbn [map app]. rewrite div262144, div4096.
  destruct (split64 c) as (q0 & r0 & E0 & B0 & Eq0 & Er0). rewrite Eq0, Er0.
  destruct (split64 q0) as (q1 & r1 & E1 & B1 & Eq1 & Er1). rewrite Eq1, Er1.
  destruct (split64 q1) as (q2 & r2 & E2 & B2 & Eq2 & Er2). rewrite Eq2, Er2.
  rewrite !byte_of_to_N by lia. rewrite utf8_decode_4 by lia. f_equal. lia.
Qed.

Lemma encode_utf8_decode (s : str) :
  forall bs, encode_utf8 s = Some bs -> utf8_decode (map Byte.to_N bs) = s.
Proof.
  induction s as [| c s IH]; intros bs H; cbn [encode_utf8] in H.
  - now inversion H.
  - destruct (encode_char c) as [b |] eqn:Ec; [| discriminate].
    destruct (encode_utf8 s) as [bs' |]; [| discriminate].
    inversion H. rewrite map_app, (encode_char_decode c b _ Ec). f_equal. now apply IH.
Qed.

(** X14. After a miss, the bytes in the cache file are the UTF-8 encoding
    of the page fetched and decode back to exactly that page: no other
    page gives the same file. *)
Theorem cached_bytes_decode (http_text : str -> option str)
    (dump_file suffix : str) (st : State) (html : str) (bytes : list byte)
  (Hmiss : files st !! dump_file = None \/ files st !! dump_file = Some [])
  (Hhttp : http_text (base_url ++ suffix) = Some html)
  (Henc : encode_utf8 html = Some bytes) :
  files (snd (fetch_html_content http_text dump_file suffix st)) !! dump_file = Some bytes /\
  utf8_decode (map Byte.to_N bytes) = html /\
  (forall html', encode_utf8 html' = Some bytes -> html' = html).
Proof.
  rewrite (fetch_html_content_miss _ _ _ _ Hmiss), Hhttp, Henc. cbn.
  split; [apply lookup_insert_eq |]. split; [now apply encode_utf8_decode |].
  intros html' H'. apply encode_utf8_decode in H', Henc. congruence.
Qed.

Lemma cached_bytes_decode_witness :
  exists bytes,
    encode_utf8 Sample.index_html = Some bytes /\
    files (snd Sample.run_fetch) !! u "index.html" = Some bytes /\
    utf8_decode (map Byte.to_N bytes) = Sample.index_html /\
    (forall html', encode_utf8 html' = Some bytes -> html' = Sample.index_html).
Proof.
  destruct (encode_utf8 Sample.index_html) as [bytes |] eqn:E;
    [| vm_compute in E; discriminate E].
  exists bytes. split; [reflexivity |].
  apply (cached_bytes_decode Sample.http_text (u "index.html") (u "index.html")
           Sample.initial Sample.index_html bytes).
  - left. apply lookup_empty.
  - vm_compute. reflexivity.
  - exact E.
Defined.

(** ** Which occurrence a search reads *)

(** X15. A search that succeeds reads the leftmost occurrence: the content
    splits into a part before, the matched text and a part after, the match
    object holds the groups of that text, and no part of the content that
    starts earlier has the shape of the pattern. *)
Theorem search_leftmost (r : regex) (content : str) (m : Match)
  (Hsearch : search r content = Some m) :
  exists pre w post,
    content = pre ++ w ++ post /\ denotes r w m /\
    forall pre' w' post' gs',
      content = pre' ++ w' ++ post' -> denotes r w' gs' ->
      (List.length pre <= List.length pre')%nat.
Proof.
  revert Hsearch. induction content as [| c s IH]; cbn [search]; intros H.
  - destruct (match_ r []) as [g |] eqn:E; [| discriminate].
    inversion H; subst. apply match_sound in E. destruct E as (w & t & E & Hd).
    exists [], w, t. split; [exact E |]. split; [exact Hd |]. intros. cbn. lia.
  - destruct (match_ r (c :: s)) as [g |] eqn:E.
    + inversion H; subst. apply match_sound in E. destruct E as (w & t & E & Hd).
      exists [], w, t. split; [exact E |]. split; [exact Hd |]. intros. cbn. lia.
    + destruct (IH H) as (pre & w & post & -> & Hd & Hmin).
      exists (c :: pre), w, post. split; [reflexivity |]. split; [exact Hd |].
      intros pre' w' post' gs' Eq Hd'. destruct pre' as [| c' pre'].
      * exfalso. cbn [app] in Eq. apply (match_complete r w' post' gs' Hd').
        now rewrite <- Eq.
      * cbn [app] in Eq. inversion Eq; subst. cbn. apply le_n_S.
        now apply (Hmin pre' w' post' gs').
Qed.

Lemma search_leftmost_witness :
  exists pre w post,
    Sample.content = pre ++ w ++ post /\
    denotes commercial_list_pattern w Sample.listed_match /\
    forall pre' w' post' gs',
      Sample.content = pre' ++ w' ++ post' -> denotes commercial_list_pattern w' gs' ->
      (List.length pre <= List.length pre')%nat.
Proof.
  apply (search_leftmost commercial_list_pattern Sample.content Sample.listed_match).
  vm_compute. reflexivity.
Defined.

(** ** The labels of the x axis *)

Lemma read_month_tag_year (tag : Tag) (t : TradeInfo) (ti : str) :
  read_month_tag tag = Ok (t, ti) -> List.length (year t) = 4%nat.
Proof.
  unfold read_month_tag. destruct (title tag) as [ti' |]; [| discriminate].
  destruct (match_ title_pattern ti') as [m |] eqn:E; [| discriminate].
  apply match_sound in E. destruct E as (w & rest & _ & Hd).
  apply title_shape in Hd. destruct Hd as (y & mo & rest' & _ & -> & Hy & _).
  cbn. destruct (href_attr tag) as [h |]; cbn; [| discriminate].
  intros H. inversion H. exact Hy.
Qed.

(** X16. Two records read from index anchors that get the same x-axis
    label have the same year and the same month: the year always has four
    characters, so the label splits in one way only. *)
Theorem x_label_identifies_month (ta tb : Tag) (a b : TradeInfo) (tia tib : str)
  (Ha : read_month_tag ta = Ok (a, tia))
  (Hb : read_month_tag tb = Ok (b, tib))
  (Hlabel : year a ++ month a = year b ++ month b) :
  month_key a = month_key b.
Proof.
  apply read_month_tag_year in Ha, Hb.
  apply app_inj_1 in Hlabel; [| congruence].
  destruct Hlabel as [Hy Hm]. unfold month_key. now rewrite Hy, Hm.
Qed.

Lemma x_label_identifies_month_witness :
  month_key Sample.trade_info = month_key Sample.trade_info.
Proof.
  apply (x_label_identifies_month Sample.month_tag Sample.month_tag
           Sample.trade_info Sample.trade_info Sample.month_title Sample.month_title).
  - vm_compute. reflexivity.
  - vm_compute. reflexivity.
  - reflexivity.
Defined.

(** ** No partial record in the list *)

Lemma appends_filled_ret {A} (a : A) : appends_filled (ret a).
Proof. intros st. exists []. cbn. now rewrite app_nil_r. Qed.

Lemma appends_filled_bind {A B} (c : M A) (k : A -> M B) :
  appends_filled c -> (forall a, appends_filled (k a)) -> appends_filled (bind c k).
Proof.
  intros Hc Hk st. unfold bind. destruct (Hc st) as (n1 & E1 & F1).
  destruct (c st) as [[a | e] st1]; cbn in E1; [| exists n1; auto].
  destruct (Hk a st1) as (n2 & E2 & F2). exists (n1 ++ n2).
  split; [now rewrite E2, E1, app_assoc | now apply Forall_app].
Qed.

Lemma appends_filled_for_each {A} (l : list A) (body : A -> M unit) :
  (forall a, appends_filled (body a)) -> appends_filled (for_each l body).
Proof.
  intros Hb. induction l as [| a l IH]; cbn [for_each]; [apply appends_filled_ret |].
  apply appends_filled_bind; [apply Hb | intros _; exact IH].
Qed.

Lemma appends_filled_fetch (http_text : str -> option str) (dump_file suffix : str) :
  appends_filled (fetch_html_content http_text dump_file suffix).
Proof.
  intros st. exists []. rewrite fetch_html_content_list, app_nil_r. auto.
Qed.

Lemma fill_month_trade_info_filled (http_text : str -> option str)
    (soup_para_text : html_content -> option str) (script_dir : str)
    (t : TradeInfo) (dump_file : option str) (st st1 : State) (r : TradeInfo) :
  fill_month_trade_info http_text soup_para_text script_dir t dump_file st = (Ok r, st1) ->
  is_filled r.
Proof.
  unfold fill_month_trade_info, bind.
  destruct (fetch_html_content _ _ _ st) as [[html | e] st0]; [| discriminate].
  destruct (soup_para_text html) as [content |]; [| discriminate].
  unfold lift. intros H. inversion H. now exists t, content.
Qed.

Lemma appends_filled_process_month_tag (http_text : str -> option str)
    (soup_para_text : html_content -> option str) (script_dir : str) (tag : Tag) :
  appends_filled (process_month_tag http_text soup_para_text script_dir tag).
Proof.
  intros st. destruct (read_month_tag tag) as [[t ti] | e] eqn:Hread.
  - rewrite (process_month_tag_body _ _ _ _ _ _ _ Hread).
    pose proof (fill_month_trade_info_list http_text soup_para_text script_dir t
                  (Some (ti ++ u ".html")) st) as Hl.
    destruct (fill_month_trade_info _ _ _ t _ st) as [[r | e] st1] eqn:Hfill;
      cbn in Hl; cbn.
    + exists [r]. split; [now rewrite Hl |]. constructor; [| constructor].
      eapply fill_month_trade_info_filled. exact Hfill.
    + exists []. rewrite app_nil_r. auto.
  - unfold process_month_tag, bind, lift. rewrite Hread. cbn.
    exists []. rewrite app_nil_r. auto.
Qed.

(** X17. All that the run adds to [month_info_list] are records that the
    parsing step built in full, with both listed-area triples and both
    house records: a month whose bulletin fails leaves nothing behind, not
    even a partly filled record. *)
Theorem fetch_business_data_appends_filled (http_text : str -> option str)
    (soup_anchors : html_content -> list Tag)
    (soup_para_text : html_content -> option str) (script_dir : str) (st : State) :
  exists new,
    month_info_list
      (snd (fetch_business_data http_text soup_anchors soup_para_text script_dir st))
    = month_info_list st ++ new /\
    Forall is_filled new /\
    Forall (fun r => exists cl rl nh oh,
              commercial_list_info r = Some cl /\ residential_list_info r = Some rl /\
              new_house r = Some nh /\ old_house r = Some oh) new.
Proof.
  assert (H : appends_filled
                (fetch_business_data http_text soup_anchors soup_para_text script_dir)).
  { unfold fetch_business_data. apply appends_filled_for_each. intros page_id.
    unfold process_index_page. apply appends_filled_bind; [apply appends_filled_fetch |].
    intros html. apply appends_filled_for_each. intros tag.
    apply appends_filled_process_month_tag. }
  destruct (H st) as (new & E & F). exists new. split; [exact E |]. split; [exact F |].
  eapply List.Forall_impl; [| exact F].
  intros r (t & content & Hr). apply fill_from_content_parts in Hr.
  destruct Hr as (cl & rl & nh & oh & -> & _). exists cl, rl, nh, oh. cbn. auto.
Qed.
